(** * The Splunk Enterprise receiver's scraper, embedded in Rocq

    Source: [receiver/splunkenterprisereceiver/scraper.go].

    The scraper runs two per-metric tasks in one collection cycle:
    - [scrapeLicenseUsageByIndex], a search job that is submitted and then
      polled until its results are ready or the wait budget is spent;
    - [scrapeIndexThroughput], one request against a REST endpoint.

    Both write datapoints into the metrics builder [mb] and failures into the
    error accumulator [errs].  The embedding passes that mutable state
    explicitly ([State], which also holds the clock, the request counter and
    the response bodies still open); everything the scraper calls but does not
    define (the HTTP client, the XML and JSON decoders, [strconv.ParseFloat])
    is a field of the environment [Env]. *)

From Stdlib Require Import ZArith List Ascii String Bool Floats Lia.
Import ListNotations.

Local Open Scope string_scope.
Local Open Scope list_scope.

(** ** Errors *)

(** Errors produced outside [scraper.go]: by the HTTP client, [io.ReadAll],
    the decoders and [strconv]. *)
Inductive lib_error : Type :=
| context_Canceled
| context_DeadlineExceeded
| other_error (msg : string).

(** Go's [error] values as the scraper sees them.  The sentinel
    [errMaxSearchWaitTimeExceeded] is one package-level value made by
    [errors.New]; it has a constructor of its own because such a value is
    equal to itself only. *)
Inductive error : Type :=
| errMaxSearchWaitTimeExceeded
| from_lib (e : lib_error)
| Errorf_w (prefix : string) (cause : error).  (* fmt.Errorf(prefix ++ ": %w", cause) *)

(** The single error value [ScrapeErrors.Combine] builds from what was added. *)
Inductive combined_error : Type :=
| scrape_errors (es : list error).

(** [errors.Is(e, context.Canceled)]: follows the [%w] chain. *)
Fixpoint is_cancellation (e : error) : bool :=
  match e with
  | from_lib context_Canceled => true
  | Errorf_w _ cause => is_cancellation cause
  | _ => false
  end.

(** ** Data model *)

(** [context.Context], reduced to the instant (a clock reading, in
    nanoseconds) at which it is canceled, if ever. *)
Record Context : Type := { canceled_at : option Z }.

Definition background : Context := {| canceled_at := None |}.

(** Modelled from the spec: the structs [field], [searchResponse] and
    [indexThroughput] are declared outside [scraper.go]; they have the fields
    [scraper.go] reads and writes, which are those of the spec's FieldValue,
    SearchJob and EndpointRecord. *)
Record field : Type := { FieldName : string; Value : string }.

Record searchResponse : Type := {
  search : string;
  Jobid : option string;
  Return : Z;
  Fields : list field
}.

Record idxTContent : Type := { Status : string; AvgKb : float }.
Record idxTEntry : Type := { Content : idxTContent }.
Record indexThroughput : Type := { Entries : list idxTEntry }.

Record Request : Type := {
  req_ctx : Context;
  req_method : string;
  req_url : string;
  req_body : string
}.

(** What the remote end sends back for one request. *)
Record Reply : Type := {
  reply_status : Z;
  reply_length : Z;                (* Content-Length; -1 when unknown *)
  reply_body : string;             (* the bytes io.ReadAll obtains *)
  reply_read_err : option lib_error  (* the error io.ReadAll ends with *)
}.

(** [http.Response]: the reply plus the handle of its body, a resource that
    stays open until [Close]. *)
Record ReadCloser : Type := {
  handle : nat;
  content : string;
  read_err : option lib_error
}.

Record Response : Type := {
  StatusCode : Z;
  ContentLength : Z;
  Body : ReadCloser
}.

Definition Timestamp : Type := Z.

Inductive datapoint : Type :=
| SplunkLicenseIndexUsage_dp (ts : Timestamp) (val : Z) (indexName : string)
| SplunkIndexerThroughput_dp (ts : Timestamp) (val : float) (status : string).

Definition dp_timestamp (d : datapoint) : Timestamp :=
  match d with
  | SplunkLicenseIndexUsage_dp ts _ _ => ts
  | SplunkIndexerThroughput_dp ts _ _ => ts
  end.

(** ** Configuration *)

Record MetricConfig : Type := { Enabled : bool }.

Record MetricsConfig : Type := {
  SplunkLicenseIndexUsage : MetricConfig;
  SplunkIndexerThroughput : MetricConfig
}.

Record MetricsBuilderConfig_t : Type := { Metrics : MetricsConfig }.

Record Config : Type := {
  MetricsBuilderConfig : MetricsBuilderConfig_t;
  MaxSearchWaitTime : Z              (* time.Duration, nanoseconds *)
}.

(** ** Environment

    The collaborators of [scraper.go].  The client's methods, the two lookup
    tables and the decoders are not defined in the file; each is a field
    here, called where the source calls it.

    - [createRequest] and [createAPIRequest] return a request or an error;
      with an error the request they return is nil.
    - [transport k now req] is [splunkClient.makeRequest(req)] for the [k]-th
      request of the cycle, started at clock reading [now]: how long the call
      blocks, and a reply or an error.  [req] is [None] for a nil request.
    - The decoders take the value behind the pointer they are given and
      return what it holds afterwards together with their error: Go's
      decoders may have written to the target when they fail.
    - [sleep_overshoot k]: how much longer than asked the [k]-th
      [time.Sleep] lasts ([time.Sleep] pauses for at least the duration). *)
Record Env : Type := {
  searchDict : string -> string;
  apiDict : string -> string;
  createRequest : Context -> searchResponse -> Request + lib_error;
  createAPIRequest : Context -> string -> Request + lib_error;
  transport : nat -> Z -> option Request -> N * (Reply + lib_error);
  xml_Unmarshal : string -> searchResponse -> searchResponse * option lib_error;
  json_Unmarshal : string -> indexThroughput -> indexThroughput * option lib_error;
  strconv_ParseFloat : string -> float + lib_error;
  int64_out_of_range : float -> Z;
  sleep_overshoot : nat -> N
}.

(** ** Mutable state of one cycle *)

Record State : Type := mkState {
  errs : list error;          (* scrapererror.ScrapeErrors *)
  mb : list datapoint;        (* points recorded into the metrics builder *)
  clock : Z;                  (* nanoseconds *)
  requests : nat;             (* calls of makeRequest so far *)
  sleeps : nat;               (* calls of time.Sleep so far *)
  open_bodies : list nat      (* handles of response bodies not yet closed *)
}.

Definition with_errs (st : State) (es : list error) : State :=
  mkState es (mb st) (clock st) (requests st) (sleeps st) (open_bodies st).

Definition with_mb (st : State) (ds : list datapoint) : State :=
  mkState (errs st) ds (clock st) (requests st) (sleeps st) (open_bodies st).

(** Modelled from the spec: [scrapererror.ScrapeErrors], the accumulator of
    zero or more failures that combines into one error value, or into no
    error when empty.

    [errs.Add(err)] *)
Definition Add (e : error) (st : State) : State := with_errs st (errs st ++ [e]).

(** [errs.Combine()]: nil when nothing was added. *)
Definition Combine (es : list error) : option combined_error :=
  match es with
  | [] => None
  | _ :: _ => Some (scrape_errors es)
  end.

Definition Second : Z := 1000000000.

(** [time.Sleep(d)] *)
Definition Sleep (E : Env) (d : Z) (st : State) : State :=
  mkState (errs st) (mb st)
          (clock st + Z.max 0 d + Z.of_N (sleep_overshoot E (sleeps st)))
          (requests st) (S (sleeps st)) (open_bodies st).

(** [time.Since(start)] *)
Definition Since (start : Z) (st : State) : Z := (clock st - start)%Z.

(** [pcommon.NewTimestampFromTime(t)]: [uint64(t.UnixNano())]. *)
Definition NewTimestampFromTime (t : Z) : Timestamp := (t mod 2 ^ 64)%Z.

(** [res.Body.Close()] *)
Definition Close (b : ReadCloser) (st : State) : State :=
  mkState (errs st) (mb st) (clock st) (requests st) (sleeps st)
          (filter (fun h => negb (Nat.eqb h (handle b))) (open_bodies st)).

(** [io.ReadAll(res.Body)] *)
Definition io_ReadAll (b : ReadCloser) : string * option lib_error :=
  (content b, read_err b).

(** [int64(v)] for a float64 [v]: truncation toward zero where the result
    fits; otherwise the value is implementation-dependent and comes from the
    environment. *)
Definition float_trunc (v : float) : option Z :=
  match Prim2SF v with
  | S754_zero _ => Some 0%Z
  | S754_finite s m e =>
      let a := if (0 <=? e)%Z then Z.shiftl (Z.pos m) e
               else Z.shiftr (Z.pos m) (- e) in
      Some (if s then (- a)%Z else a)
  | S754_infinity _ => None
  | S754_nan => None
  end.

Definition int64_of_float (E : Env) (v : float) : Z :=
  match float_trunc v with
  | Some z =>
      if ((- 2 ^ 63 <=? z) && (z <? 2 ^ 63))%Z then z else int64_out_of_range E v
  | None => int64_out_of_range E v
  end.

(** ** The metrics builder

    Modelled from the spec: the builder ([internal/metadata]) is not part of
    [scraper.go]; it is the emitter that accepts one
    (timestamp, value, dimension) tuple per [Record] call, only ever adds, and
    hands out the recorded set on [Emit].  A task records only after it found
    its metric enabled, in the configuration the builder was made from. *)

Definition RecordSplunkLicenseIndexUsageDataPoint
    (ts : Timestamp) (val : Z) (indexName : string) (st : State) : State :=
  with_mb st (mb st ++ [SplunkLicenseIndexUsage_dp ts val indexName]).

Definition RecordSplunkIndexerThroughputDataPoint
    (ts : Timestamp) (val : float) (status : string) (st : State) : State :=
  with_mb st (mb st ++ [SplunkIndexerThroughput_dp ts val status]).

(** [s.mb.Emit()]: hands out what was recorded and empties the builder. *)
Definition Emit (st : State) : list datapoint * State := (mb st, with_mb st []).

(** The response object [makeRequest] hands out for the reply to request [k]. *)
Definition response_of (k : nat) (r : Reply) : Response :=
  {| StatusCode := reply_status r;
     ContentLength := reply_length r;
     Body := {| handle := k; content := reply_body r; read_err := reply_read_err r |} |}.

(** [p != nil] for an optional value held behind a pointer. *)
Definition isSome {A : Type} (o : option A) : bool :=
  match o with Some _ => true | None => false end.

(** ** The scraper *)

Section Scraper.

Variable E : Env.        (* s.splunkClient and the libraries *)
Variable conf : Config.  (* s.conf *)

(** [s.splunkClient.makeRequest(req)], with its effects on the cycle's state:
    the call is counted, the clock advances by the time the call blocked, and
    a reply comes with a body that is open until closed. *)
Definition makeRequest (req : option Request) (st : State)
  : (Response + lib_error) * State :=
  let k := requests st in
  let '(took, out) := transport E k (clock st) req in
  let now := (clock st + Z.of_N took)%Z in
  match out with
  | inl r =>
      (inl (response_of k r),
       mkState (errs st) (mb st) now (S k) (sleeps st) (open_bodies st ++ [k]))
  | inr e =>
      (inr e, mkState (errs st) (mb st) now (S k) (sleeps st) (open_bodies st))
  end.

(** Source lines 139-157.  The result is the search response as the call
    leaves it behind [sr], and the error returned. *)
Definition unmarshallSearchReq (res : Response) (sr : searchResponse)
  : searchResponse * option error :=
  let sr1 := {| search := search sr; Jobid := Jobid sr;
                Return := StatusCode res; Fields := Fields sr |} in
  if (ContentLength res =? 0)%Z then (sr1, None)
  else
    let '(body, rerr) := io_ReadAll (Body res) in
    match rerr with
    | Some e => (sr1, Some (Errorf_w "Failed to read response" (from_lib e)))
    | None =>
        let '(sr2, xerr) := xml_Unmarshal E body sr1 in
        match xerr with
        | Some e => (sr2, Some (Errorf_w "Failed to unmarshall response" (from_lib e)))
        | None => (sr2, None)
        end
    end.

(** How one pass through the body of the [for] loop (lines 84-117) ends. *)
Inductive control : Type :=
| Break (sr : searchResponse)      (* line 107 *)
| Returned                         (* lines 87, 93, 100, 116 *)
| Continue (sr : searchResponse).  (* falls off the end of the body *)

(** One pass through the loop body, lines 84-117. *)
Definition poll (ctx : Context) (start : Z) (sr : searchResponse) (st : State)
  : control * State :=
  match createRequest E ctx sr with
  | inr err => (Returned, Add (from_lib err) st)
  | inl req =>
      let '(out, st1) := makeRequest (Some req) st in
      match out with
      | inr err => (Returned, Add (from_lib err) st1)
      | inl res =>
          let '(sr', uerr) := unmarshallSearchReq res sr in
          match uerr with
          | Some err => (Returned, Add err st1)
          | None =>
              let st2 := Close (Body res) st1 in
              if ((Return sr' =? 200)%Z && isSome (Jobid sr'))%bool
              then (Break sr', st2)
              else
                let st3 := if (Return sr' =? 204)%Z
                           then Sleep E (2 * Second) st2 else st2 in
                if (Since start st3 >? MaxSearchWaitTime conf)%Z
                then (Returned, Add errMaxSearchWaitTimeExceeded st3)
                else (Continue sr', st3)
          end
      end
  end.

(** The [for] loop, lines 83-118.  [fuel] bounds the number of passes; [None]
    means the bound was reached with the loop still running.  [Some (None, _)]
    is a return from inside the loop, [Some (Some sr, _)] the [break]. *)
Fixpoint poll_loop (fuel : nat) (ctx : Context) (start : Z)
    (sr : searchResponse) (st : State) : option (option searchResponse * State) :=
  match fuel with
  | O => None
  | S fuel' =>
      match poll ctx start sr st with
      | (Break sr', st') => Some (Some sr', st')
      | (Returned, st') => Some (None, st')
      | (Continue sr', st') => poll_loop fuel' ctx start sr' st'
      end
  end.

(** Lines 121-135: the walk over the decoded fields. *)
Fixpoint record_fields (now : Timestamp) (fs : list field) (indexName : string)
    (st : State) : State :=
  match fs with
  | [] => st
  | f :: fs' =>
      if String.eqb (FieldName f) "indexname" then
        record_fields now fs' (Value f) st
      else if String.eqb (FieldName f) "By" then
        match strconv_ParseFloat E (Value f) with
        | inr err => record_fields now fs' indexName (Add (from_lib err) st)
        | inl v =>
            record_fields now fs' indexName
              (RecordSplunkLicenseIndexUsageDataPoint now (int64_of_float E v) indexName st)
        end
      else record_fields now fs' indexName st
  end.

(** Lines 63-136. *)
Definition scrapeLicenseUsageByIndex (fuel : nat) (ctx : Context)
    (now : Timestamp) (st : State) : option State :=
  if negb (Enabled (SplunkLicenseIndexUsage (Metrics (MetricsBuilderConfig conf))))
  then Some st
  else
    let sr := {| search := searchDict E "SplunkLicenseIndexUsageSearch";
                 Jobid := None; Return := 0%Z; Fields := [] |} in
    let start := clock st in
    match poll_loop fuel ctx start sr st with
    | None => None
    | Some (None, st') => Some st'
    | Some (Some sr', st') => Some (record_fields now (Fields sr') "" st')
    end.

(** Lines 192-194. *)
Definition record_entries (now : Timestamp) (es : list idxTEntry) (st : State)
  : State :=
  fold_left
    (fun s entry =>
       RecordSplunkIndexerThroughputDataPoint now
         (1000 * AvgKb (Content entry))%float (Status (Content entry)) s)
    es st.

(** Lines 160-195.  The deferred [res.Body.Close()] runs last. *)
Definition scrapeIndexThroughput (ctx : Context) (now : Timestamp) (st : State)
  : State :=
  if negb (Enabled (SplunkIndexerThroughput (Metrics (MetricsBuilderConfig conf))))
  then st
  else
    let ept := apiDict E "SplunkIndexerThroughput" in
    let '(req, st1) :=
      match createAPIRequest E ctx ept with
      | inr err => (None, Add (from_lib err) st)     (* lines 171-173: no return *)
      | inl r => (Some r, st)
      end in
    let '(out, st2) := makeRequest req st1 in
    match out with
    | inr err => Add (from_lib err) st2
    | inl res =>
        let '(body, rerr) := io_ReadAll (Body res) in
        let st3 := match rerr with
                   | Some err => Add (from_lib err) st2   (* lines 183-185 *)
                   | None => st2
                   end in
        let '(it, jerr) := json_Unmarshal E body {| Entries := [] |} in
        let st4 := match jerr with
                   | Some err => Add (from_lib err) st3   (* lines 188-190 *)
                   | None => st3
                   end in
        Close (Body res) (record_entries now (Entries it) st4)
    end.

(** Lines 53-60.  The accumulator is created empty, the timestamp is read from
    the clock once, then the two tasks run in order. *)
Definition scrape (fuel : nat) (ctx : Context) (st : State)
  : option (list datapoint * option combined_error * State) :=
  let st0 := with_errs st [] in
  let now := NewTimestampFromTime (clock st0) in
  match scrapeLicenseUsageByIndex fuel ctx now st0 with
  | None => None
  | Some st1 =>
      let st2 := scrapeIndexThroughput ctx now st1 in
      let '(metrics, st3) := Emit st2 in
      Some (metrics, Combine (errs st3), st3)
  end.

End Scraper.

(** ** The tasks of a cycle, by name *)

Inductive task : Type := LicenseUsageByIndex | IndexThroughput.

Definition task_enabled (conf : Config) (t : task) : bool :=
  match t with
  | LicenseUsageByIndex =>
      Enabled (SplunkLicenseIndexUsage (Metrics (MetricsBuilderConfig conf)))
  | IndexThroughput =>
      Enabled (SplunkIndexerThroughput (Metrics (MetricsBuilderConfig conf)))
  end.

Definition run_task (E : Env) (conf : Config) (fuel : nat) (ctx : Context)
    (now : Timestamp) (t : task) (st : State) : option State :=
  match t with
  | LicenseUsageByIndex => scrapeLicenseUsageByIndex E conf fuel ctx now st
  | IndexThroughput => Some (scrapeIndexThroughput E conf ctx now st)
  end.

(** ** The field mapping, as the specification words it

    A [By] field whose value parses yields one datapoint; its dimension is
    the value of the most recent [indexname] field before it, or the empty
    string when there is none. *)

Definition is_indexname (f : field) : bool := String.eqb (FieldName f) "indexname".
Definition is_By (f : field) : bool := String.eqb (FieldName f) "By".

Definition most_recent_indexname (preceding : list field) : string :=
  match find is_indexname (rev preceding) with
  | Some f => Value f
  | None => ""
  end.

(** The datapoint and the failure that the field at position [i] gives rise
    to, when the fields before the sequence were [before]. *)
Definition spec_point_at (E : Env) (now : Timestamp) (before fs : list field)
    (i : nat) : list datapoint :=
  match nth_error fs i with
  | Some f =>
      if is_By f then
        match strconv_ParseFloat E (Value f) with
        | inl v =>
            [SplunkLicenseIndexUsage_dp now (int64_of_float E v)
               (most_recent_indexname (before ++ firstn i fs))]
        | inr _ => []
        end
      else []
  | None => []
  end.

Definition spec_error_at (E : Env) (fs : list field) (i : nat) : list error :=
  match nth_error fs i with
  | Some f =>
      if is_By f then
        match strconv_ParseFloat E (Value f) with
        | inl _ => []
        | inr e => [from_lib e]
        end
      else []
  | None => []
  end.

Definition spec_points (E : Env) (now : Timestamp) (before fs : list field)
  : list datapoint :=
  flat_map (spec_point_at E now before fs) (seq 0 (List.length fs)).

Definition spec_errors (E : Env) (fs : list field) : list error :=
  flat_map (spec_error_at E fs) (seq 0 (List.length fs)).

(** ** Notions used in the statements *)

(** Every point recorded between [st] and [st'] carries the timestamp [now]. *)
Definition stamped (now : Timestamp) (st st' : State) : Prop :=
  exists new, mb st' = mb st ++ new /\ Forall (fun d => dp_timestamp d = now) new.

(** The search response a task starts from (lines 71-73). *)
Definition new_search (E : Env) : searchResponse :=
  {| search := searchDict E "SplunkLicenseIndexUsageSearch";
     Jobid := None; Return := 0%Z; Fields := [] |}.

Definition with_Return (sr : searchResponse) (code : Z) : searchResponse :=
  {| search := search sr; Jobid := Jobid sr; Return := code; Fields := Fields sr |}.

(** The field names the license-usage mapping knows. *)
Definition recognized (f : field) : bool := is_indexname f || is_By f.

(** HTTP 204: the status, and no content. *)
Definition no_content (r : Reply) : Prop :=
  reply_status r = 204%Z /\ reply_length r = 0%Z.

(** Every poll response is a 204 until the maximum search wait time has
    elapsed since [start]: requests can be built, and a request started
    within the wait is answered 204. *)
Definition pending_until_timeout (E : Env) (conf : Config) (ctx : Context)
    (start : Z) : Prop :=
  (forall sr, exists req, createRequest E ctx sr = inl req) /\
  (forall k now req,
      (now - start <= Z.max 0 (MaxSearchWaitTime conf))%Z ->
      exists took r, transport E k now (Some req) = (took, inl r) /\ no_content r).

(** The clock when the sleep after a poll is over, for a poll that started in
    [st] and whose request took [took]. *)
Definition woken_at (E : Env) (st : State) (took : N) : Z :=
  (clock st + Z.of_N took + 2 * Second + Z.of_N (sleep_overshoot E (sleeps st)))%Z.

(** The states after a first poll answered 204 and a second poll answered
    with the reply [r1]. *)
Definition after_first_poll (E : Env) (st : State) (took0 : N) : State :=
  mkState (errs st) (mb st) (woken_at E st took0) (S (requests st)) (S (sleeps st))
          (filter (fun h => negb (Nat.eqb h (requests st)))
                  (open_bodies st ++ [requests st])).

Definition after_second_poll (E : Env) (st : State) (took0 took1 : N) (r1 : Reply)
  : State :=
  Close {| handle := S (requests st); content := reply_body r1;
           read_err := reply_read_err r1 |}
        (mkState (errs st) (mb st) (woken_at E st took0 + Z.of_N took1)%Z
                 (S (S (requests st))) (S (sleeps st))
                 (open_bodies (after_first_poll E st took0) ++ [S (requests st)])).

(** What the throughput task adds to the accumulator for a body that was read
    without error: the JSON decoder's verdict on it. *)
Definition json_verdict (E : Env) (body : string) : list error :=
  match snd (json_Unmarshal E body {| Entries := [] |}) with
  | Some e => [from_lib e]
  | None => []
  end.

(** The client fails a request whose context is canceled by the time the call
    returns, and with the cancellation error. *)
Definition honors_cancellation (E : Env) : Prop :=
  forall k now req c took out,
    canceled_at (req_ctx req) = Some c ->
    transport E k now (Some req) = (took, out) ->
    (c <= now + Z.of_N took)%Z ->
    out = inr context_Canceled.

(** The request built for a context carries that context. *)
Definition carries_context (E : Env) (ctx : Context) : Prop :=
  forall sr req, createRequest E ctx sr = inl req -> req_ctx req = ctx.

(** When the request of the poll that starts in [st] returns; the start of
    the poll if the request cannot be built. *)
Definition request_returns_at (E : Env) (ctx : Context) (sr : searchResponse)
    (st : State) : Z :=
  match createRequest E ctx sr with
  | inl req =>
      (clock st + Z.of_N (fst (transport E (requests st) (clock st) (Some req))))%Z
  | inr _ => clock st
  end.

(** ** A scripted environment

    Concrete collaborators for running the scraper on explicit inputs: the
    transport replays a script, one entry per request of the cycle, and the
    decoders answer as Go's do on the handful of bodies used below. *)

Module Mock.

Definition script : Type := list (N * (Reply + lib_error)).

Definition connection_refused : lib_error := other_error "connection refused".

Definition replay (s : script) (k : nat) (_ : Z) (_ : option Request)
  : N * (Reply + lib_error) :=
  nth k s (0%N, inr connection_refused).

Definition reply (status len : Z) (body : string) : Reply :=
  {| reply_status := status; reply_length := len;
     reply_body := body; reply_read_err := None |}.

(** A pending job: 204, no content. *)
Definition pending : Reply := reply 204 0 "".

Definition results_body : string :=
  "<results><sid>1699</sid><result><field k='host'><value><text>idx1</text></value></field><field k='indexname'><value><text>main</text></value></field><field k='By'><value><text>42.0</text></value></field></result></results>".

Definition truncated_body : string := "<results><result><field k='indexname'>".

(** [xml.Unmarshal]: no input is [io.EOF]; the decoder appends to [Fields]. *)
Definition xml_decode (body : string) (sr : searchResponse)
  : searchResponse * option lib_error :=
  if String.eqb body "" then (sr, Some (other_error "EOF"))
  else if String.eqb body results_body then
    ({| search := search sr; Jobid := Some "1699"; Return := Return sr;
        Fields := Fields sr ++ [ {| FieldName := "host"; Value := "idx1" |};
                                 {| FieldName := "indexname"; Value := "main" |};
                                 {| FieldName := "By"; Value := "42.0" |} ] |},
     None)
  else (sr, Some (other_error "XML syntax error on line 1: unexpected EOF")).

(** [q s] is [s] between double quotes (character 34), as JSON writes names
    and strings. *)
Definition q (s : string) : string :=
  String "034"%char (s ++ String "034"%char EmptyString).

(** One entry, status ok, 1.5 KB/s on average. *)
Definition throughput_body : string :=
  "{" ++ q "entry" ++ ":[{" ++ q "content" ++ ":{" ++ q "status" ++ ":" ++ q "ok"
      ++ "," ++ q "average_KBps" ++ ":1.5}}]}".

(** The same entry with a string where the number is expected. *)
Definition mistyped_body : string :=
  "{" ++ q "entry" ++ ":[{" ++ q "content" ++ ":{" ++ q "status" ++ ":" ++ q "ok"
      ++ "," ++ q "average_KBps" ++ ":" ++ q "fast" ++ "}}]}".

(** [json.Unmarshal]: no input is a syntax error; a value of the wrong type
    for its field is skipped, the rest is decoded, and the call returns an
    [UnmarshalTypeError]; on a syntax error the target is left as it was. *)
Definition json_decode (body : string) (it : indexThroughput)
  : indexThroughput * option lib_error :=
  if String.eqb body "" then (it, Some (other_error "unexpected end of JSON input"))
  else if String.eqb body throughput_body then
    ({| Entries := [ {| Content := {| Status := "ok"; AvgKb := 1.5%float |} |} ] |},
     None)
  else if String.eqb body mistyped_body then
    ({| Entries := [ {| Content := {| Status := "ok"; AvgKb := 0%float |} |} ] |},
     Some (other_error
             "json: cannot unmarshal string into Go struct field idxTContent.entry.content.average_KBps of type float64"))
  else (it, Some (other_error "invalid character")).

Definition parse_float (s : string) : float + lib_error :=
  if String.eqb s "42.0" then inl 42%float
  else if String.eqb s "1.5" then inl 1.5%float
  else inr (other_error "strconv.ParseFloat: invalid syntax").

Definition new_request (ctx : Context) (method url body : string) : Request :=
  {| req_ctx := ctx; req_method := method; req_url := url; req_body := body |}.

(** The client posts the search while there is no job id and asks for the
    job's results afterwards. *)
Definition search_request (ctx : Context) (sr : searchResponse)
  : Request + lib_error :=
  match Jobid sr with
  | None => inl (new_request ctx "POST" "/services/search/jobs/" (search sr))
  | Some id => inl (new_request ctx "GET" ("/services/search/jobs/" ++ id ++ "/results") "")
  end.

Definition api_request (ok : bool) (ctx : Context) (ept : string)
  : Request + lib_error :=
  if ok then inl (new_request ctx "GET" ept "")
  else inr (other_error "net/http: nil Context").

Definition env_with (tr : nat -> Z -> option Request -> N * (Reply + lib_error))
    (api_ok : bool) : Env :=
  {| searchDict := fun _ => "search index=_internal";
     apiDict := fun _ => "/services/server/introspection/indexer";
     createRequest := search_request;
     createAPIRequest := api_request api_ok;
     transport := tr;
     xml_Unmarshal := xml_decode;
     json_Unmarshal := json_decode;
     strconv_ParseFloat := parse_float;
     int64_out_of_range := fun _ => (- 2 ^ 63)%Z;
     sleep_overshoot := fun _ => 0%N |}.

Definition env (s : script) (api_ok : bool) : Env := env_with (replay s) api_ok.

(** A job that never completes: every request takes 50ms and is answered 204. *)
Definition stuck : Env := env_with (fun _ _ _ => (50000000%N, inl pending)) true.

Definition ms : Z := 1000000.

(** A transport that observes the context of the request: when the context
    is canceled by the time the scripted reply would arrive, the call ends at
    the cancellation (at once if that is past) with [context.Canceled]. *)
Definition replay_cancellable (s : script) (k : nat) (now : Z)
    (req : option Request) : N * (Reply + lib_error) :=
  let '(took, out) := replay s k now req in
  match req with
  | Some r =>
      match canceled_at (req_ctx r) with
      | Some c =>
          if (c <=? now + Z.of_N took)%Z
          then (Z.to_N (c - now), inr context_Canceled)
          else (took, out)
      | None => (took, out)
      end
  | None => (took, out)
  end.

Definition cancellable (s : script) : Env := env_with (replay_cancellable s) true.

(** Canceled one second into the clock's run. *)
Definition canceled_at_1s : Context := {| canceled_at := Some 1000000000%Z |}.

(** A cycle in which the job is pending once and then ready, and the
    throughput endpoint answers. *)
Definition healthy : Env :=
  env [ (300000000%N, inl pending);
        (700000000%N, inl (reply 200 (-1) results_body));
        (100000000%N, inl (reply 200 (-1) throughput_body)) ] true.

Definition config (license throughput : bool) (max_wait : Z) : Config :=
  {| MetricsBuilderConfig :=
       {| Metrics := {| SplunkLicenseIndexUsage := {| Enabled := license |};
                        SplunkIndexerThroughput := {| Enabled := throughput |} |} |};
     MaxSearchWaitTime := max_wait |}.

Definition idle : State := mkState [] [] 0 0 0 [].

(** The same, five seconds into the clock's run. *)
Definition idle_at_5s : State := mkState [] [] (5 * Second)%Z 0 0 [].

(** A reply whose body arrives whole but whose read ends in an error, as when
    the connection drops before the announced length is reached. *)
Definition cut_short : Reply :=
  {| reply_status := 200; reply_length := 4096;
     reply_body := throughput_body;
     reply_read_err := Some (other_error "unexpected EOF") |}.

(** A job that is pending once and then ready. *)
Definition two_replies : script :=
  [ (500000000%N, inl pending);
    (700000000%N, inl (reply 200 (-1) results_body)) ].

(** The state in which the second poll of [two_replies] starts, at 2.5s. *)
Definition woken : State := mkState [] [] (2500 * ms)%Z 1 1 [].

End Mock.

(** * Properties *)

Local Open Scope Z_scope.

(** Case analysis on whatever the goal matches on. *)
Ltac case_split :=
  repeat match goal with
         | |- context [match ?x with _ => _ end] =>
             match x with
             | context [match _ with _ => _ end] => fail 1
             | _ => let H := fresh "Hcase" in destruct x eqn:H
             end
         end.

(** ** What the helpers leave alone *)

Section Frames.

Variable E : Env.
Variable conf : Config.

Lemma Add_mb e st : mb (Add e st) = mb st.
Proof. reflexivity. Qed.

Lemma Add_errs e st : errs (Add e st) = errs st ++ [e].
Proof. reflexivity. Qed.

Lemma Close_mb b st : mb (Close b st) = mb st.
Proof. reflexivity. Qed.

Lemma Close_errs b st : errs (Close b st) = errs st.
Proof. reflexivity. Qed.

Lemma Sleep_mb d st : mb (Sleep E d st) = mb st.
Proof. reflexivity. Qed.

Lemma Sleep_errs d st : errs (Sleep E d st) = errs st.
Proof. reflexivity. Qed.

Lemma Sleep_clock d st : (clock st + d <= clock (Sleep E d st))%Z.
Proof. unfold Sleep; simpl. lia. Qed.

Lemma makeRequest_mb req st : mb (snd (makeRequest E req st)) = mb st.
Proof. unfold makeRequest. case_split; reflexivity. Qed.

Lemma makeRequest_errs req st : errs (snd (makeRequest E req st)) = errs st.
Proof. unfold makeRequest. case_split; reflexivity. Qed.

Lemma makeRequest_clock req st : (clock st <= clock (snd (makeRequest E req st)))%Z.
Proof. unfold makeRequest. case_split; simpl; lia. Qed.

Lemma makeRequest_requests req st :
  requests (snd (makeRequest E req st)) = S (requests st).
Proof. unfold makeRequest. case_split; reflexivity. Qed.

(** The loop records no datapoint: only the walk over the fields does. *)
Lemma poll_mb ctx start sr st : mb (snd (poll E conf ctx start sr st)) = mb st.
Proof.
  unfold poll.
  destruct (createRequest E ctx sr) as [req|err]; [|reflexivity].
  pose proof (makeRequest_mb (Some req) st) as Hm.
  destruct (makeRequest E (Some req) st) as [out st1]; simpl in Hm.
  destruct out as [res|err]; [|exact Hm].
  destruct (unmarshallSearchReq E res sr) as [sr' [err|]]; [exact Hm|].
  case_split; simpl; exact Hm.
Qed.

Lemma poll_loop_mb fuel ctx start : forall sr st r st',
  poll_loop E conf fuel ctx start sr st = Some (r, st') -> mb st' = mb st.
Proof.
  induction fuel as [|fuel IH]; intros sr st r st' H; simpl in H; [discriminate|].
  pose proof (poll_mb ctx start sr st) as Hm.
  destruct (poll E conf ctx start sr st) as [[sr1| |sr1] st1]; simpl in Hm.
  - inversion H; subst; exact Hm.
  - inversion H; subst; exact Hm.
  - rewrite (IH _ _ _ _ H). exact Hm.
Qed.

(** More fuel does not change a finished run. *)
Lemma poll_loop_more_fuel fuel ctx start : forall sr st r,
  poll_loop E conf fuel ctx start sr st = Some r ->
  forall fuel', (fuel <= fuel')%nat ->
  poll_loop E conf fuel' ctx start sr st = Some r.
Proof.
  induction fuel as [|fuel IH]; intros sr st r H fuel' Hle; simpl in H; [discriminate|].
  destruct fuel' as [|fuel']; [lia|]. simpl.
  destruct (poll E conf ctx start sr st) as [[sr1| |sr1] st1]; try exact H.
  apply IH; [exact H | lia].
Qed.

Lemma stamped_refl now st st' : mb st' = mb st -> stamped now st st'.
Proof. intros H. exists []. rewrite app_nil_r. split; [exact H | constructor]. Qed.

Lemma stamped_trans now st1 st2 st3 :
  stamped now st1 st2 -> stamped now st2 st3 -> stamped now st1 st3.
Proof.
  intros [n1 [H1 F1]] [n2 [H2 F2]]. exists (n1 ++ n2). split.
  - rewrite H2, H1, app_assoc. reflexivity.
  - apply Forall_app. split; assumption.
Qed.

Lemma record_fields_stamped now fs : forall indexName st,
  stamped now st (record_fields E now fs indexName st).
Proof.
  induction fs as [|f fs IH]; intros indexName st; simpl.
  - apply stamped_refl. reflexivity.
  - destruct (String.eqb (FieldName f) "indexname"); [apply IH|].
    destruct (String.eqb (FieldName f) "By"); [|apply IH].
    destruct (strconv_ParseFloat E (Value f)) as [v|err].
    + eapply stamped_trans; [|apply IH].
      exists [SplunkLicenseIndexUsage_dp now (int64_of_float E v) indexName].
      split; [reflexivity|]. repeat constructor.
    + eapply stamped_trans; [|apply IH]. apply stamped_refl. reflexivity.
Qed.

Lemma record_entries_stamped now es : forall st,
  stamped now st (record_entries now es st).
Proof.
  unfold record_entries.
  induction es as [|e es IH]; intros st; simpl.
  - apply stamped_refl. reflexivity.
  - eapply stamped_trans; [|apply IH].
    eexists. split; [reflexivity|]. repeat constructor.
Qed.

Lemma scrapeLicenseUsageByIndex_stamped fuel ctx now st st' :
  scrapeLicenseUsageByIndex E conf fuel ctx now st = Some st' ->
  stamped now st st'.
Proof.
  unfold scrapeLicenseUsageByIndex. intros H.
  destruct (negb _).
  - inversion H; subst. apply stamped_refl. reflexivity.
  - destruct (poll_loop E conf fuel ctx (clock st) _ st) as [[[sr'|] st1]|] eqn:Hl;
      [| |discriminate]; inversion H; subst; clear H.
    + eapply stamped_trans; [|apply record_fields_stamped].
      apply stamped_refl. eapply poll_loop_mb. exact Hl.
    + apply stamped_refl. eapply poll_loop_mb. exact Hl.
Qed.

Lemma scrapeIndexThroughput_stamped ctx now st :
  stamped now st (scrapeIndexThroughput E conf ctx now st).
Proof.
  unfold scrapeIndexThroughput.
  destruct (negb _); [apply stamped_refl; reflexivity|].
  set (st1 := snd (match createAPIRequest E ctx (apiDict E "SplunkIndexerThroughput") with
                   | inl r => (Some r, st) | inr err => (None, Add (from_lib err) st) end)).
  assert (Hst1 : mb st1 = mb st) by (subst st1; case_split; reflexivity).
  destruct (createAPIRequest E ctx (apiDict E "SplunkIndexerThroughput")) as [r|err];
    simpl in st1.
  all: match goal with
       | |- context [makeRequest E ?rq ?s] =>
           pose proof (makeRequest_mb rq s) as Hm;
           destruct (makeRequest E rq s) as [[res|err'] st2]; simpl in Hm
       end.
  all: try (apply stamped_refl; simpl; congruence).
  all: unfold io_ReadAll;
       destruct (json_Unmarshal E (content (Body res)) {| Entries := [] |}) as [it jerr];
       eapply stamped_trans; [|apply stamped_refl; apply Close_mb];
       eapply stamped_trans; [|apply record_entries_stamped];
       apply stamped_refl;
       destruct (read_err (Body res)), jerr; simpl; congruence.
Qed.

End Frames.

(** ** Disabled tasks *)

(** C6. A task whose enabled flag is false does nothing: whatever the fuel,
    the context and the environment, the invocation returns the state it was
    given, so the request counter, the error accumulator and the recorded
    datapoints are exactly as before. *)
Theorem disabled_task_is_skipped E conf fuel ctx now t st :
  task_enabled conf t = false ->
  run_task E conf fuel ctx now t st = Some st.
Proof.
  intros Hoff. destruct t; simpl in *.
  - unfold scrapeLicenseUsageByIndex. rewrite Hoff. reflexivity.
  - unfold scrapeIndexThroughput. rewrite Hoff. reflexivity.
Qed.

Lemma disabled_task_is_skipped_witness :
  task_enabled (Mock.config true false 0) IndexThroughput = false /\
  run_task (Mock.env [(5%N, inl (Mock.reply 200 (-1) Mock.throughput_body))] true)
           (Mock.config true false 0) 0%nat background 7 IndexThroughput Mock.idle
  = Some Mock.idle.
Proof.
  split; [reflexivity|].
  apply (disabled_task_is_skipped _ (Mock.config true false 0)). reflexivity.
Defined.

(** ** One timestamp per cycle *)

(** C9. [scrape] reads the clock once, when the cycle starts; every datapoint
    that the cycle adds to the builder, by either task, carries that reading as
    its timestamp, however far the clock has moved on when it is recorded. *)
Theorem scrape_uses_one_timestamp E conf fuel ctx st metrics err st' :
  scrape E conf fuel ctx st = Some (metrics, err, st') ->
  exists new,
    metrics = mb st ++ new /\
    Forall (fun d => dp_timestamp d = NewTimestampFromTime (clock st)) new.
Proof.
  unfold scrape. intros H.
  destruct (scrapeLicenseUsageByIndex E conf fuel ctx _ (with_errs st [])) as [st1|] eqn:H1;
    [|discriminate].
  apply scrapeLicenseUsageByIndex_stamped in H1.
  pose proof (scrapeIndexThroughput_stamped E conf ctx
                (NewTimestampFromTime (clock (with_errs st []))) st1) as H2.
  pose proof (stamped_trans _ _ _ _ H1 H2) as [new [Hmb Hall]].
  unfold Emit in H. inversion H; subst; clear H.
  exists new. split; [exact Hmb | exact Hall].
Qed.

Lemma scrape_uses_one_timestamp_witness :
  scrape Mock.healthy (Mock.config true true (60 * Second)) 2%nat background Mock.idle_at_5s
  = Some ([SplunkLicenseIndexUsage_dp (5 * Second) 42 "main";
           SplunkIndexerThroughput_dp (5 * Second) 1500 "ok"],
          None,
          mkState [] [] (8100 * Mock.ms) 3%nat 1%nat []) /\
  exists new,
    [SplunkLicenseIndexUsage_dp (5 * Second) 42 "main";
     SplunkIndexerThroughput_dp (5 * Second) 1500 "ok"] = mb Mock.idle_at_5s ++ new /\
    Forall (fun d => dp_timestamp d = NewTimestampFromTime (clock Mock.idle_at_5s)) new.
Proof.
  split; [vm_compute; reflexivity|].
  apply (scrape_uses_one_timestamp Mock.healthy (Mock.config true true (60 * Second))
           2%nat background Mock.idle_at_5s _ None (mkState [] [] (8100 * Mock.ms) 3%nat 1%nat [])).
  vm_compute. reflexivity.
Defined.

(** ** The field mapping *)

Lemma indexname_is_not_By f : is_indexname f = true -> is_By f = false.
Proof.
  unfold is_indexname, is_By. intros H. apply String.eqb_eq in H. rewrite H.
  reflexivity.
Qed.

Lemma most_recent_indexname_snoc before f :
  most_recent_indexname (before ++ [f]) =
  if is_indexname f then Value f else most_recent_indexname before.
Proof.
  unfold most_recent_indexname. rewrite rev_app_distr. simpl.
  destruct (is_indexname f); reflexivity.
Qed.

Lemma spec_point_at_succ E now before f fs i :
  spec_point_at E now before (f :: fs) (S i) = spec_point_at E now (before ++ [f]) fs i.
Proof.
  unfold spec_point_at. simpl. rewrite <- app_assoc. reflexivity.
Qed.

Lemma spec_points_cons E now before f fs :
  spec_points E now before (f :: fs) =
  spec_point_at E now before (f :: fs) 0 ++ spec_points E now (before ++ [f]) fs.
Proof.
  unfold spec_points. simpl List.length. rewrite <- cons_seq. simpl flat_map.
  f_equal. rewrite <- seq_shift, flat_map_concat_map, map_map.
  rewrite flat_map_concat_map. f_equal. apply map_ext.
  intros i. apply spec_point_at_succ.
Qed.

Lemma spec_errors_cons E f fs :
  spec_errors E (f :: fs) = spec_error_at E (f :: fs) 0 ++ spec_errors E fs.
Proof.
  unfold spec_errors. simpl List.length. rewrite <- cons_seq. simpl flat_map.
  f_equal. rewrite <- seq_shift, flat_map_concat_map, map_map.
  rewrite flat_map_concat_map. reflexivity.
Qed.

Lemma record_fields_refines E now fs : forall before st,
  mb (record_fields E now fs (most_recent_indexname before) st)
    = mb st ++ spec_points E now before fs /\
  errs (record_fields E now fs (most_recent_indexname before) st)
    = errs st ++ spec_errors E fs.
Proof.
  induction fs as [|f fs IH]; intros before st.
  - simpl. unfold spec_points, spec_errors. simpl. rewrite !app_nil_r. split; reflexivity.
  - rewrite spec_points_cons, spec_errors_cons.
    unfold spec_point_at, spec_error_at. simpl nth_error. simpl firstn.
    rewrite app_nil_r. simpl record_fields.
    pose proof (most_recent_indexname_snoc before f) as Hsnoc.
    fold (is_indexname f). fold (is_By f).
    destruct (is_indexname f) eqn:Hin.
    + rewrite (indexname_is_not_By f Hin). simpl.
      rewrite <- Hsnoc. apply IH.
    + destruct (is_By f).
      * destruct (strconv_ParseFloat E (Value f)) as [v|err].
        -- destruct (IH (before ++ [f])
                       (RecordSplunkLicenseIndexUsageDataPoint now (int64_of_float E v)
                          (most_recent_indexname before) st)) as [Hm He].
           rewrite Hsnoc in Hm, He. rewrite Hm, He. simpl.
           rewrite <- app_assoc. split; reflexivity.
        -- destruct (IH (before ++ [f]) (Add (from_lib err) st)) as [Hm He].
           rewrite Hsnoc in Hm, He. rewrite Hm, He. simpl.
           rewrite <- app_assoc. split; reflexivity.
      * simpl. specialize (IH (before ++ [f]) st). rewrite Hsnoc in IH. exact IH.
Qed.

Example By_before_any_indexname :
  mb (record_fields Mock.healthy 7
        [ {| FieldName := "By"; Value := "42.0" |};
          {| FieldName := "indexname"; Value := "main" |};
          {| FieldName := "sourcetype"; Value := "splunkd" |};
          {| FieldName := "By"; Value := "1.5" |};
          {| FieldName := "indexname"; Value := "audit" |};
          {| FieldName := "By"; Value := "42.0" |} ] "" Mock.idle)
  = [ SplunkLicenseIndexUsage_dp 7 42 "";
      SplunkLicenseIndexUsage_dp 7 1 "main";
      SplunkLicenseIndexUsage_dp 7 42 "audit" ].
Proof. reflexivity. Qed.

(** C10. The walk over the decoded fields produces exactly the datapoints the
    mapping describes: one per [By] field whose value parses, in order, each
    with the value of the most recent preceding [indexname] field as its
    dimension and with the empty string when no [indexname] field precedes
    it.  Such a point is recorded, not skipped, and the only failures added
    are those of [By] values that do not parse. *)
Theorem By_takes_most_recent_indexname E now fs st :
  mb (record_fields E now fs "" st) = mb st ++ spec_points E now [] fs /\
  errs (record_fields E now fs "" st) = errs st ++ spec_errors E fs.
Proof. exact (record_fields_refines E now fs [] st). Qed.

(** ** A job that stays pending *)

Section Pending.

Variable E : Env.
Variable conf : Config.
Variable ctx : Context.

(** One pass over a pending job: the body is closed, the task sleeps two
    seconds or more, and then either reports the timeout or goes round again
    within the wait. *)
Lemma poll_pending start sr st :
  pending_until_timeout E conf ctx start ->
  clock st - start <= Z.max 0 (MaxSearchWaitTime conf) ->
  exists ctl st',
    poll E conf ctx start sr st = (ctl, st') /\
    mb st' = mb st /\ open_bodies st' = filter (fun h => negb (Nat.eqb h (requests st))) (open_bodies st ++ [requests st]) /\
    clock st + 2 * Second <= clock st' /\
    ((ctl = Returned /\ errs st' = errs st ++ [errMaxSearchWaitTimeExceeded]) \/
     (exists sr', ctl = Continue sr' /\ errs st' = errs st /\
                  clock st' - start <= MaxSearchWaitTime conf)).
Proof.
  intros [Hreq Htr] Hin.
  destruct (Hreq sr) as [req Hc].
  destruct (Htr (requests st) (clock st) req Hin) as [took [r [Ht [Hs Hl]]]].
  unfold poll. rewrite Hc. unfold makeRequest. rewrite Ht.
  unfold unmarshallSearchReq, response_of. cbn [ContentLength StatusCode Body].
  rewrite Hl, Hs. cbn [Z.eqb Pos.eqb Return Jobid andb].
  set (st1 := Close _ _).
  destruct (Since start (Sleep E (2 * Second) st1) >? MaxSearchWaitTime conf) eqn:Hcmp.
  - eexists _, _. split; [reflexivity|]. subst st1. cbn.
    repeat split; try reflexivity; try lia.
    left. split; reflexivity.
  - eexists _, _. split; [reflexivity|]. subst st1. cbn.
    repeat split; try reflexivity; try lia.
    right. eexists. repeat split.
    unfold Since in Hcmp. cbn in Hcmp. lia.
Qed.

Lemma poll_loop_pending start fuel : forall sr st,
  pending_until_timeout E conf ctx start ->
  clock st - start <= Z.max 0 (MaxSearchWaitTime conf) ->
  MaxSearchWaitTime conf - (clock st - start) < 2 * Second * Z.of_nat (S fuel) ->
  exists st',
    poll_loop E conf (S fuel) ctx start sr st = Some (None, st') /\
    errs st' = errs st ++ [errMaxSearchWaitTimeExceeded] /\
    mb st' = mb st.
Proof.
  induction fuel as [|fuel IH]; intros sr st Hp Hin Hfuel.
  - destruct (poll_pending start sr st Hp Hin)
      as [ctl [st' [Hpoll [Hmb [_ [Hclk [[Hc He]|[sr' [Hc [He Hw]]]]]]]]]].
    + exists st'. simpl. rewrite Hpoll, Hc. auto.
    + exfalso. lia.
  - destruct (poll_pending start sr st Hp Hin)
      as [ctl [st' [Hpoll [Hmb [_ [Hclk [[Hc He]|[sr' [Hc [He Hw]]]]]]]]]].
    + exists st'. cbn [poll_loop]. rewrite Hpoll, Hc. auto.
    + destruct (IH sr' st' Hp) as [st'' [Hl [He' Hmb']]]; [lia | lia |].
      exists st''. change (poll_loop E conf (S (S fuel)) ctx start sr st)
        with (match poll E conf ctx start sr st with
              | (Break s, t) => Some (Some s, t)
              | (Returned, t) => Some (None, t)
              | (Continue s, t) => poll_loop E conf (S fuel) ctx start s t
              end).
      rewrite Hpoll, Hc, Hl. repeat split; congruence.
Qed.

End Pending.

(** C3. When every poll is answered 204 until the maximum search wait time
    has elapsed, the license-usage task ends (any fuel that covers one pass
    per two seconds of the wait suffices), it adds exactly one failure, the
    dedicated [errMaxSearchWaitTimeExceeded], and it records no datapoint.
    That failure differs from every failure a request or a decode step can
    add: those are library errors and [Errorf_w] wrappers. *)
Theorem pending_job_times_out E conf ctx now st fuel :
  task_enabled conf LicenseUsageByIndex = true ->
  pending_until_timeout E conf ctx (clock st) ->
  Z.max 0 (MaxSearchWaitTime conf) < 2 * Second * Z.of_nat fuel ->
  (exists st',
      scrapeLicenseUsageByIndex E conf fuel ctx now st = Some st' /\
      errs st' = errs st ++ [errMaxSearchWaitTimeExceeded] /\
      mb st' = mb st) /\
  (forall e, errMaxSearchWaitTimeExceeded <> from_lib e) /\
  (forall prefix cause, errMaxSearchWaitTimeExceeded <> Errorf_w prefix cause).
Proof.
  intros Hon Hp Hfuel. split; [|split; intros; discriminate].
  unfold scrapeLicenseUsageByIndex. simpl in Hon. rewrite Hon. cbn [negb].
  destruct fuel as [|fuel]; [unfold Second in Hfuel; lia|].
  destruct (poll_loop_pending E conf ctx (clock st) fuel
              {| search := searchDict E "SplunkLicenseIndexUsageSearch";
                 Jobid := None; Return := 0; Fields := [] |} st Hp)
    as [st' [Hl [He Hm]]]; [lia | lia |].
  exists st'. rewrite Hl. auto.
Qed.

Lemma pending_job_times_out_witness :
  (exists st',
      scrapeLicenseUsageByIndex Mock.stuck (Mock.config true true (100 * Mock.ms))
        1 background 0 Mock.idle = Some st' /\
      errs st' = errs Mock.idle ++ [errMaxSearchWaitTimeExceeded] /\
      mb st' = mb Mock.idle) /\
  (forall e, errMaxSearchWaitTimeExceeded <> from_lib e) /\
  (forall prefix cause, errMaxSearchWaitTimeExceeded <> Errorf_w prefix cause).
Proof.
  apply (pending_job_times_out Mock.stuck (Mock.config true true (100 * Mock.ms))
           background 0 Mock.idle 1).
  - reflexivity.
  - split.
    + intros sr. unfold Mock.stuck, Mock.env_with, Mock.search_request; simpl.
      destruct (Jobid sr); eexists; reflexivity.
    + intros k t req _. exists 50000000%N, Mock.pending.
      split; [reflexivity | split; reflexivity].
  - vm_compute. reflexivity.
Defined.

(** ** The end-to-end run: pending once, then ready *)

Lemma record_fields_ignores_unrecognized E now fs : forall indexName st,
  record_fields E now fs indexName st
  = record_fields E now (filter recognized fs) indexName st.
Proof.
  induction fs as [|f fs IH]; intros indexName st; [reflexivity|].
  simpl. unfold recognized, is_indexname, is_By.
  destruct (String.eqb (FieldName f) "indexname") eqn:Hi; simpl.
  - rewrite Hi. apply IH.
  - destruct (String.eqb (FieldName f) "By") eqn:Hb; simpl.
    + rewrite Hi, Hb. destruct (strconv_ParseFloat E (Value f)); apply IH.
    + apply IH.
Qed.

Lemma int64_of_42 E : int64_of_float E 42%float = 42.
Proof. reflexivity. Qed.

Section EndToEnd.

Variable E : Env.
Variable conf : Config.
Variable ctx : Context.
Variable st : State.

Variables (req0 req1 : Request) (took0 took1 : N) (r0 r1 : Reply).
Variables (sr2 : searchResponse) (jid : string).

Hypothesis Hon : task_enabled conf LicenseUsageByIndex = true.
(* first poll: 204 *)
Hypothesis Hreq0 : createRequest E ctx (new_search E) = inl req0.
Hypothesis Htr0 : transport E (requests st) (clock st) (Some req0) = (took0, inl r0).
Hypothesis H204 : no_content r0.
(* the wait is not used up when the task wakes *)
Hypothesis Hwait : (woken_at E st took0) - clock st <= MaxSearchWaitTime conf.
(* second poll: 200, a job id and the two fields *)
Hypothesis Hreq1 : createRequest E ctx (with_Return (new_search E) 204) = inl req1.
Hypothesis Htr1 : transport E (S (requests st)) (woken_at E st took0) (Some req1) = (took1, inl r1).
Hypothesis H200 : reply_status r1 = 200.
Hypothesis Hlen : reply_length r1 <> 0.
Hypothesis Hread : reply_read_err r1 = None.
Hypothesis Hxml :
  xml_Unmarshal E (reply_body r1) (with_Return (new_search E) 200) = (sr2, None).
Hypothesis Hret : Return sr2 = 200.
Hypothesis Hjob : Jobid sr2 = Some jid.
Hypothesis Hfields :
  filter recognized (Fields sr2)
  = [ {| FieldName := "indexname"; Value := "main" |};
      {| FieldName := "By"; Value := "42.0" |} ].
Hypothesis Hparse : strconv_ParseFloat E "42.0" = inl 42%float.

Lemma first_poll_continues :
  poll E conf ctx (clock st) (new_search E) st
  = (Continue (with_Return (new_search E) 204), (after_first_poll E st took0)).
Proof.
  destruct H204 as [Hs Hl].
  unfold poll. rewrite Hreq0. unfold makeRequest. rewrite Htr0.
  unfold unmarshallSearchReq, response_of. cbn [ContentLength StatusCode Body].
  rewrite Hl, Hs. cbn [Z.eqb Pos.eqb Return Jobid andb].
  assert (Hclk : clock (Sleep E (2 * Second)
                   (Close {| handle := requests st; content := reply_body r0;
                             read_err := reply_read_err r0 |}
                      (mkState (errs st) (mb st) (clock st + Z.of_N took0)
                         (S (requests st)) (sleeps st)
                         (open_bodies st ++ [requests st])))) = (woken_at E st took0)).
  { unfold woken_at, Sleep, Second. cbn. lia. }
  unfold Since. rewrite Hclk.
  destruct ((woken_at E st took0) - clock st >? MaxSearchWaitTime conf) eqn:Hcmp; [lia|].
  unfold after_first_poll, with_Return. rewrite <- Hclk. reflexivity.
Qed.

Lemma second_poll_breaks :
  poll E conf ctx (clock st) (with_Return (new_search E) 204) (after_first_poll E st took0)
  = (Break sr2, (after_second_poll E st took0 took1 r1)).
Proof.
  unfold poll. rewrite Hreq1. unfold makeRequest.
  cbn [requests clock after_first_poll]. rewrite Htr1.
  unfold unmarshallSearchReq, response_of. cbn [ContentLength StatusCode Body].
  destruct (reply_length r1 =? 0) eqn:Hz; [lia|].
  unfold io_ReadAll. cbn [content read_err]. rewrite Hread, H200.
  change {| search := search (with_Return (new_search E) 204);
            Jobid := Jobid (with_Return (new_search E) 204);
            Return := 200;
            Fields := Fields (with_Return (new_search E) 204) |}
    with (with_Return (new_search E) 200).
  rewrite Hxml, Hret, Hjob. reflexivity.
Qed.

Lemma two_polls fuel :
  (2 <= fuel)%nat ->
  poll_loop E conf fuel ctx (clock st) (new_search E) st
  = Some (Some sr2, (after_second_poll E st took0 took1 r1)).
Proof.
  intros Hf. apply (poll_loop_more_fuel E conf 2 ctx (clock st)); [|exact Hf].
  simpl. rewrite first_poll_continues, second_poll_breaks. reflexivity.
Qed.

Lemma fields_give_one_point now s :
  record_fields E now (Fields sr2) "" s
  = RecordSplunkLicenseIndexUsageDataPoint now 42 "main" s.
Proof.
  rewrite record_fields_ignores_unrecognized, Hfields. simpl.
  rewrite Hparse, int64_of_42. reflexivity.
Qed.

Lemma license_task_end_to_end now fuel :
  (2 <= fuel)%nat ->
  scrapeLicenseUsageByIndex E conf fuel ctx now st
  = Some (RecordSplunkLicenseIndexUsageDataPoint now 42 "main" (after_second_poll E st took0 took1 r1)).
Proof.
  intros Hf. unfold scrapeLicenseUsageByIndex. simpl in Hon. rewrite Hon.
  cbn [negb]. fold (new_search E). rewrite (two_polls fuel Hf).
  rewrite fields_give_one_point. reflexivity.
Qed.

End EndToEnd.

(** C8. The license-usage task is enabled; its first poll is answered 204
    and, the wait not being used up after the two-second sleep, its second
    poll is answered 200 with a body that decodes to a job id and, among the
    fields with a recognized name, [indexname = main] followed by
    [By = 42.0], which [strconv.ParseFloat] reads as the float 42.  Then the
    task ends after these two polls with exactly one new datapoint, of
    dimension [main] and value 42 (the float truncated to an integer), and no
    new failure; fields of any other name in the decoded sequence change
    nothing.  When the throughput task is disabled the cycle returns that
    datapoint and no combined error. *)
Theorem license_usage_end_to_end
    E conf ctx st req0 req1 took0 took1 r0 r1 sr2 jid fuel :
  task_enabled conf LicenseUsageByIndex = true ->
  createRequest E ctx (new_search E) = inl req0 ->
  transport E (requests st) (clock st) (Some req0) = (took0, inl r0) ->
  no_content r0 ->
  woken_at E st took0 - clock st <= MaxSearchWaitTime conf ->
  createRequest E ctx (with_Return (new_search E) 204) = inl req1 ->
  transport E (S (requests st)) (woken_at E st took0) (Some req1) = (took1, inl r1) ->
  reply_status r1 = 200 ->
  reply_length r1 <> 0 ->
  reply_read_err r1 = None ->
  xml_Unmarshal E (reply_body r1) (with_Return (new_search E) 200) = (sr2, None) ->
  Return sr2 = 200 ->
  Jobid sr2 = Some jid ->
  filter recognized (Fields sr2)
  = [ {| FieldName := "indexname"; Value := "main" |};
      {| FieldName := "By"; Value := "42.0" |} ] ->
  strconv_ParseFloat E "42.0" = inl 42%float ->
  (2 <= fuel)%nat ->
  (forall now, exists st1,
      scrapeLicenseUsageByIndex E conf fuel ctx now st = Some st1 /\
      mb st1 = mb st ++ [SplunkLicenseIndexUsage_dp now 42 "main"] /\
      errs st1 = errs st /\
      requests st1 = S (S (requests st))) /\
  (task_enabled conf IndexThroughput = false ->
   exists st',
     scrape E conf fuel ctx st
     = Some (mb st ++ [SplunkLicenseIndexUsage_dp (NewTimestampFromTime (clock st)) 42 "main"],
             None, st')).
Proof.
  intros Hon Hreq0 Htr0 H204 Hwait Hreq1 Htr1 H200 Hlen Hread Hxml Hret Hjob
         Hfields Hparse Hfuel.
  split.
  - intros now. eexists. split.
    + eapply (license_task_end_to_end E conf ctx st); eassumption.
    + repeat split; reflexivity.
  - intros Hoff. unfold scrape.
    rewrite (license_task_end_to_end E conf ctx (with_errs st [])
               req0 req1 took0 took1 r0 r1 sr2 jid
               Hon Hreq0 Htr0 H204 Hwait Hreq1 Htr1 H200 Hlen Hread Hxml Hret Hjob
               Hfields Hparse _ fuel Hfuel).
    unfold scrapeIndexThroughput. simpl in Hoff. rewrite Hoff. cbn [negb].
    eexists. reflexivity.
Qed.

Lemma license_usage_end_to_end_witness :
  (forall now, exists st1,
      scrapeLicenseUsageByIndex Mock.healthy (Mock.config true false (60 * Second))
        2 background now Mock.idle_at_5s = Some st1 /\
      mb st1 = mb Mock.idle_at_5s ++ [SplunkLicenseIndexUsage_dp now 42 "main"] /\
      errs st1 = errs Mock.idle_at_5s /\
      requests st1 = S (S (requests Mock.idle_at_5s))) /\
  (task_enabled (Mock.config true false (60 * Second)) IndexThroughput = false ->
   exists st',
     scrape Mock.healthy (Mock.config true false (60 * Second)) 2 background
       Mock.idle_at_5s
     = Some (mb Mock.idle_at_5s
               ++ [SplunkLicenseIndexUsage_dp
                     (NewTimestampFromTime (clock Mock.idle_at_5s)) 42 "main"],
             None, st')).
Proof.
  apply (license_usage_end_to_end Mock.healthy (Mock.config true false (60 * Second))
           background Mock.idle_at_5s
           (Mock.new_request background "POST" "/services/search/jobs/"
              "search index=_internal")
           (Mock.new_request background "POST" "/services/search/jobs/"
              "search index=_internal")
           300000000%N 700000000%N
           Mock.pending (Mock.reply 200 (-1) Mock.results_body)
           (fst (Mock.xml_decode Mock.results_body
                   (with_Return (new_search Mock.healthy) 200)))
           "1699" 2).
  all: try reflexivity.
  - split; reflexivity.
  - vm_compute. discriminate.
  - vm_compute. discriminate.
Defined.

(** ** Paths on which the code does less than the specification asks *)

(** A poll whose reply fails to be read or decoded ends the job task with that
    one failure and no datapoint, and with the body of the reply still open. *)
Lemma poll_decode_failure E conf ctx start sr st req took r sr' e :
  createRequest E ctx sr = inl req ->
  transport E (requests st) (clock st) (Some req) = (took, inl r) ->
  unmarshallSearchReq E (response_of (requests st) r) sr = (sr', Some e) ->
  poll E conf ctx start sr st
  = (Returned,
     mkState (errs st ++ [e]) (mb st) (clock st + Z.of_N took) (S (requests st))
             (sleeps st) (open_bodies st ++ [requests st])).
Proof.
  intros Hreq Htr Hdec. unfold poll. rewrite Hreq. unfold makeRequest.
  rewrite Htr, Hdec. reflexivity.
Qed.

(** C1. A poll of the job whose reply does not decode: the task adds the
    decode failure and returns from line 100, before the [Close] of line 102,
    so the body obtained from [makeRequest] (handle 0) is still open when the
    task is over.  The throughput task, given the same reply, closes it. *)
Theorem poller_leaves_body_open_on_decode_failure :
  scrapeLicenseUsageByIndex
    (Mock.env [(300000000%N, inl (Mock.reply 200 (-1) Mock.truncated_body))] true)
    (Mock.config true false (60 * Second)) 1 background 0 Mock.idle
  = Some (mkState
            [Errorf_w "Failed to unmarshall response"
               (from_lib (other_error "XML syntax error on line 1: unexpected EOF"))]
            [] (300 * Mock.ms) 1 0 [0%nat]) /\
  open_bodies
    (scrapeIndexThroughput
       (Mock.env [(300000000%N, inl (Mock.reply 200 (-1) Mock.truncated_body))] true)
       (Mock.config false true (60 * Second)) background 0 Mock.idle)
  = [].
Proof. split; vm_compute; reflexivity. Qed.

(** C2. The throughput task does not end at its first failure.
    - When reading the body fails, the failure is added (line 184), then the
      bytes read are decoded and the decoded entry is recorded as a
      datapoint.
    - When building the request fails, the failure is added (line 172) and
      [makeRequest] is still called, with the nil request: the request
      counter goes from 0 to 1.  (What that call then does is the client's
      business; the scripted one fails it.) *)
Theorem throughput_task_goes_on_after_failure :
  scrapeIndexThroughput (Mock.env [(100000000%N, inl Mock.cut_short)] true)
    (Mock.config false true (60 * Second)) background 7 Mock.idle
  = mkState [from_lib (other_error "unexpected EOF")]
            [SplunkIndexerThroughput_dp 7 1500 "ok"]
            (100 * Mock.ms) 1 0 [] /\
  scrapeIndexThroughput (Mock.env [] false)
    (Mock.config false true (60 * Second)) background 7 Mock.idle
  = mkState [from_lib (other_error "net/http: nil Context");
             from_lib Mock.connection_refused]
            [] 0 1 0 [].
Proof. split; vm_compute; reflexivity. Qed.

(** A reply that is well-formed JSON but carries a string where the number
    is expected: the decoder reports the value of the wrong type and has
    filled in the rest of the record; the throughput task adds that failure
    (line 189) and, having no return there, records a datapoint from the
    record all the same.  Second, a cycle in which the job task fails on a
    truncated body: the throughput task runs after it and records its
    point. *)
Theorem throughput_task_records_after_decode_failure :
  scrapeIndexThroughput
    (Mock.env [(100000000%N, inl (Mock.reply 200 (-1) Mock.mistyped_body))] true)
    (Mock.config false true (60 * Second)) background 7 Mock.idle
  = mkState
      [from_lib (other_error
         "json: cannot unmarshal string into Go struct field idxTContent.entry.content.average_KBps of type float64")]
      [SplunkIndexerThroughput_dp 7 0 "ok"]
      (100 * Mock.ms) 1 0 [] /\
  scrape
    (Mock.env [(300000000%N, inl (Mock.reply 200 (-1) Mock.truncated_body));
               (100000000%N, inl (Mock.reply 200 (-1) Mock.throughput_body))] true)
    (Mock.config true true (60 * Second)) 1 background Mock.idle
  = Some ([SplunkIndexerThroughput_dp 0 1500 "ok"],
          Some (scrape_errors
                  [Errorf_w "Failed to unmarshall response"
                     (from_lib (other_error "XML syntax error on line 1: unexpected EOF"))]),
          mkState
            [Errorf_w "Failed to unmarshall response"
               (from_lib (other_error "XML syntax error on line 1: unexpected EOF"))]
            [] (400 * Mock.ms) 2 0 [0%nat]).
Proof. split; vm_compute; reflexivity. Qed.

(** ** Empty bodies *)

(** An empty body is a decode failure wherever it reaches a decoder: on the
    endpoint path always (a 200 with [Content-Length: 0] here), and on the job
    path when the length of the reply is not known to be 0. *)
Lemma empty_body_is_decoded_and_fails :
  content
    (Body {| StatusCode := 200; ContentLength := -1;
             Body := {| handle := 0; content := ""; read_err := None |} |}) = "" /\
  scrapeIndexThroughput
    (Mock.env [(100000000%N, inl (Mock.reply 200 0 ""))] true)
    (Mock.config false true (60 * Second)) background 7 Mock.idle
  = mkState [from_lib (other_error "unexpected end of JSON input")] []
            (100 * Mock.ms) 1 0 [] /\
  unmarshallSearchReq (Mock.env [] true)
    {| StatusCode := 200; ContentLength := -1;
       Body := {| handle := 0; content := ""; read_err := None |} |}
    (new_search (Mock.env [] true))
  = (with_Return (new_search (Mock.env [] true)) 200,
     Some (Errorf_w "Failed to unmarshall response" (from_lib (other_error "EOF")))).
Proof. repeat split; vm_compute; reflexivity. Qed.

Lemma record_entries_errs now es : forall st,
  errs (record_entries now es st) = errs st.
Proof.
  unfold record_entries. induction es as [|e es IH]; intros st; simpl;
    [reflexivity|]. rewrite IH. reflexivity.
Qed.

(** C7, as the code has it.  On the job path a reply of content length 0 is
    the "no content yet" input: [unmarshallSearchReq] stores the status code,
    reads and decodes nothing, and returns no error.  The endpoint path has no
    such case: the body that was read, empty or not, goes to the JSON decoder,
    and what the task adds to the accumulator is that decoder's verdict. *)
Theorem zero_length_reply_is_not_decoded
    E conf ctx now st req took r res sr :
  ContentLength res = 0 ->
  task_enabled conf IndexThroughput = true ->
  createAPIRequest E ctx (apiDict E "SplunkIndexerThroughput") = inl req ->
  transport E (requests st) (clock st) (Some req) = (took, inl r) ->
  reply_read_err r = None ->
  unmarshallSearchReq E res sr = (with_Return sr (StatusCode res), None) /\
  errs (scrapeIndexThroughput E conf ctx now st)
  = errs st ++ json_verdict E (reply_body r).
Proof.
  intros Hlen Hon Hreq Htr Hread. split.
  - unfold unmarshallSearchReq. rewrite Hlen. reflexivity.
  - unfold scrapeIndexThroughput. simpl in Hon. rewrite Hon. cbn [negb].
    rewrite Hreq. unfold makeRequest. rewrite Htr.
    unfold io_ReadAll, json_verdict, response_of. cbn [Body content read_err].
    rewrite Hread.
    destruct (json_Unmarshal E (reply_body r) {| Entries := [] |}) as [it [e|]];
      cbn [snd]; rewrite Close_errs, record_entries_errs; simpl.
    + reflexivity.
    + rewrite app_nil_r. reflexivity.
Qed.

Lemma zero_length_reply_is_not_decoded_witness :
  unmarshallSearchReq (Mock.env [(100000000%N, inl (Mock.reply 200 0 ""))] true)
    {| StatusCode := 204; ContentLength := 0;
       Body := {| handle := 0; content := ""; read_err := None |} |}
    (new_search (Mock.env [] true))
  = (with_Return (new_search (Mock.env [] true)) 204, None) /\
  errs (scrapeIndexThroughput
          (Mock.env [(100000000%N, inl (Mock.reply 200 0 ""))] true)
          (Mock.config false true (60 * Second)) background 7 Mock.idle)
  = errs Mock.idle
      ++ json_verdict (Mock.env [(100000000%N, inl (Mock.reply 200 0 ""))] true) "".
Proof.
  apply (zero_length_reply_is_not_decoded
           (Mock.env [(100000000%N, inl (Mock.reply 200 0 ""))] true)
           (Mock.config false true (60 * Second)) background 7 Mock.idle
           (Mock.new_request background "GET" "/services/server/introspection/indexer" "")
           100000000%N (Mock.reply 200 0 "")).
  all: reflexivity.
Defined.

(** ** Cancellation *)

(** The context is canceled at 1s.  The first poll, started at 0, is answered
    204 after 500ms, so the cancellation falls into the sleep that follows; the
    sleep lasts until 2.5s all the same.
    - With a maximum wait of 2s the task then ends with the timeout failure:
      no cancellation failure is added at all.
    - With a maximum wait of 60s the task starts another poll at 2.5s and
      ends with the failure of that request. *)
Lemma cancellation_during_sleep_is_not_observed :
  scrapeLicenseUsageByIndex (Mock.cancellable [(500000000%N, inl Mock.pending)])
    (Mock.config true false (2 * Second)) 1 Mock.canceled_at_1s 0 Mock.idle
  = Some (mkState [errMaxSearchWaitTimeExceeded] [] (2500 * Mock.ms) 1 1 []) /\
  existsb is_cancellation [errMaxSearchWaitTimeExceeded] = false /\
  scrapeLicenseUsageByIndex
    (Mock.cancellable [(500000000%N, inl Mock.pending);
                       (700000000%N, inl (Mock.reply 200 (-1) Mock.results_body))])
    (Mock.config true false (60 * Second)) 2 Mock.canceled_at_1s 0 Mock.idle
  = Some (mkState [from_lib context_Canceled] [] (2500 * Mock.ms) 2 1 []).
Proof. repeat split; vm_compute; reflexivity. Qed.

Section Cancellation.

Variable E : Env.
Variable conf : Config.
Variable ctx : Context.

Lemma poll_canceled c start sr st :
  honors_cancellation E -> carries_context E ctx ->
  canceled_at ctx = Some c ->
  c <= request_returns_at E ctx sr st ->
  exists e,
    poll E conf ctx start sr st
    = (Returned,
       mkState (errs st ++ [from_lib e]) (mb st) (request_returns_at E ctx sr st)
               (match createRequest E ctx sr with
                | inl _ => S (requests st) | inr _ => requests st end)
               (sleeps st) (open_bodies st)) /\
    (e = context_Canceled \/ createRequest E ctx sr = inr e).
Proof.
  intros Hhon Hcar Hc Hle. unfold request_returns_at in *. unfold poll.
  destruct (createRequest E ctx sr) as [req|err] eqn:Hreq.
  - exists context_Canceled. split; [|left; reflexivity].
    unfold makeRequest.
    destruct (transport E (requests st) (clock st) (Some req)) as [took out] eqn:Htr.
    cbn [fst] in Hle.
    assert (Hout : out = inr context_Canceled).
    { apply (Hhon (requests st) (clock st) req c took out); auto.
      rewrite (Hcar sr req Hreq). exact Hc. }
    subst out. reflexivity.
  - exists err. split; [|right; reflexivity].
    unfold Add, with_errs. destruct st; reflexivity.
Qed.

Lemma poll_no_content_sleeps start sr st req took r :
  createRequest E ctx sr = inl req ->
  transport E (requests st) (clock st) (Some req) = (took, inl r) ->
  no_content r ->
  exists ctl st',
    poll E conf ctx start sr st = (ctl, st') /\
    sleeps st' = S (sleeps st) /\
    clock st + Z.of_N took + 2 * Second <= clock st' /\
    mb st' = mb st /\
    ((ctl = Returned /\ errs st' = errs st ++ [errMaxSearchWaitTimeExceeded] /\
      clock st' - start > MaxSearchWaitTime conf) \/
     (ctl = Continue (with_Return sr 204) /\ errs st' = errs st)).
Proof.
  intros Hreq Htr [Hs Hl].
  unfold poll. rewrite Hreq. unfold makeRequest. rewrite Htr.
  unfold unmarshallSearchReq, response_of. cbn [ContentLength StatusCode Body].
  rewrite Hl, Hs. cbn [Z.eqb Pos.eqb Return Jobid andb].
  set (st1 := Close _ _).
  destruct (Since start (Sleep E (2 * Second) st1) >? MaxSearchWaitTime conf) eqn:Hcmp.
  - eexists _, _. split; [reflexivity|]. subst st1. cbn.
    repeat split; try reflexivity; try lia.
    left. repeat split. unfold Since in Hcmp. cbn in Hcmp. lia.
  - eexists _, _. split; [reflexivity|]. subst st1. cbn.
    repeat split; try reflexivity; try lia.
    right. split; reflexivity.
Qed.

End Cancellation.

(** C5, as the code has it.  The context is canceled at [c] and the client
    fails the requests of a canceled context.
    - If the context is canceled by the time the request of a poll returns
      (during that request, or before the poll began, as during the sleep
      before it), the task ends with that poll: one failure is added, the
      cancellation failure, or the construction failure when the request
      cannot be built; there is no further sleep, at most this one request,
      and no datapoint.
    - The sleep does not observe the context: a poll answered 204 sleeps its
      two seconds in full and then either reports the timeout or goes round
      again; it adds no cancellation failure itself. *)
Theorem cancellation_is_noticed_at_requests_only
    E conf ctx c start sr st fuel :
  honors_cancellation E ->
  carries_context E ctx ->
  canceled_at ctx = Some c ->
  (c <= request_returns_at E ctx sr st ->
   exists e st',
     poll_loop E conf (S fuel) ctx start sr st = Some (None, st') /\
     errs st' = errs st ++ [from_lib e] /\
     (e = context_Canceled \/ createRequest E ctx sr = inr e) /\
     mb st' = mb st /\
     sleeps st' = sleeps st /\
     (requests st' <= S (requests st))%nat /\
     clock st' = request_returns_at E ctx sr st) /\
  (forall req took r,
      createRequest E ctx sr = inl req ->
      transport E (requests st) (clock st) (Some req) = (took, inl r) ->
      no_content r ->
      exists ctl st',
        poll E conf ctx start sr st = (ctl, st') /\
        sleeps st' = S (sleeps st) /\
        clock st + Z.of_N took + 2 * Second <= clock st' /\
        mb st' = mb st /\
        ((ctl = Returned /\ errs st' = errs st ++ [errMaxSearchWaitTimeExceeded] /\
          clock st' - start > MaxSearchWaitTime conf) \/
         (ctl = Continue (with_Return sr 204) /\ errs st' = errs st))).
Proof.
  intros Hhon Hcar Hc. split.
  - intros Hle.
    destruct (poll_canceled E conf ctx c start sr st Hhon Hcar Hc Hle)
      as [e [Hpoll Hwhich]].
    exists e. eexists. cbn [poll_loop]. rewrite Hpoll.
    split; [reflexivity|]. cbn.
    repeat split; try reflexivity; try exact Hwhich.
    destruct (createRequest E ctx sr); lia.
  - intros req took r Hreq Htr Hno.
    exact (poll_no_content_sleeps E conf ctx start sr st req took r Hreq Htr Hno).
Qed.

Lemma Mock_cancellable_honors s : honors_cancellation (Mock.cancellable s).
Proof.
  intros k now req c took out Hc Htr Hle.
  unfold Mock.cancellable, Mock.env_with in Htr. cbn [transport] in Htr.
  unfold Mock.replay_cancellable in Htr.
  destruct (Mock.replay s k now (Some req)) as [t o].
  rewrite Hc in Htr.
  destruct (c <=? now + Z.of_N t) eqn:Hb; inversion Htr; subst; [reflexivity|lia].
Qed.

Lemma Mock_requests_carry_context s ctx : carries_context (Mock.cancellable s) ctx.
Proof.
  intros sr req H. unfold Mock.cancellable, Mock.env_with in H.
  cbn [createRequest] in H. unfold Mock.search_request in H.
  destruct (Jobid sr); inversion H; reflexivity.
Qed.

Lemma cancellation_is_noticed_at_requests_only_witness :
  (1 * Second
   <= request_returns_at (Mock.cancellable Mock.two_replies) Mock.canceled_at_1s
        (with_Return (new_search (Mock.cancellable Mock.two_replies)) 204) Mock.woken ->
   exists e st',
     poll_loop (Mock.cancellable Mock.two_replies) (Mock.config true false (60 * Second))
       1 Mock.canceled_at_1s 0
       (with_Return (new_search (Mock.cancellable Mock.two_replies)) 204) Mock.woken
     = Some (None, st') /\
     errs st' = errs Mock.woken ++ [from_lib e] /\
     (e = context_Canceled \/
      createRequest (Mock.cancellable Mock.two_replies) Mock.canceled_at_1s
        (with_Return (new_search (Mock.cancellable Mock.two_replies)) 204) = inr e) /\
     mb st' = mb Mock.woken /\
     sleeps st' = sleeps Mock.woken /\
     (requests st' <= S (requests Mock.woken))%nat /\
     clock st'
     = request_returns_at (Mock.cancellable Mock.two_replies) Mock.canceled_at_1s
         (with_Return (new_search (Mock.cancellable Mock.two_replies)) 204) Mock.woken) /\
  (forall req took r,
      createRequest (Mock.cancellable Mock.two_replies) Mock.canceled_at_1s
        (with_Return (new_search (Mock.cancellable Mock.two_replies)) 204) = inl req ->
      transport (Mock.cancellable Mock.two_replies) (requests Mock.woken)
        (clock Mock.woken) (Some req) = (took, inl r) ->
      no_content r ->
      exists ctl st',
        poll (Mock.cancellable Mock.two_replies) (Mock.config true false (60 * Second))
          Mock.canceled_at_1s 0
          (with_Return (new_search (Mock.cancellable Mock.two_replies)) 204) Mock.woken
        = (ctl, st') /\
        sleeps st' = S (sleeps Mock.woken) /\
        clock Mock.woken + Z.of_N took + 2 * Second <= clock st' /\
        mb st' = mb Mock.woken /\
        ((ctl = Returned /\
          errs st' = errs Mock.woken ++ [errMaxSearchWaitTimeExceeded] /\
          clock st' - 0 > MaxSearchWaitTime (Mock.config true false (60 * Second))) \/
         (ctl = Continue
                  (with_Return
                     (with_Return (new_search (Mock.cancellable Mock.two_replies)) 204)
                     204) /\
          errs st' = errs Mock.woken))).
Proof.
  apply (cancellation_is_noticed_at_requests_only
           (Mock.cancellable Mock.two_replies) (Mock.config true false (60 * Second))
           Mock.canceled_at_1s (1 * Second) 0
           (with_Return (new_search (Mock.cancellable Mock.two_replies)) 204)
           Mock.woken 0).
  - apply Mock_cancellable_honors.
  - apply Mock_requests_carry_context.
  - reflexivity.
Defined.

(** * Further properties of the scraper *)

(** Case analysis on whatever a hypothesis of the form [_ = (ctl, st')]
    matches on, down to the states it equates. *)
Ltac invert_run H :=
  repeat match type of H with
         | context [match ?x with _ => _ end] =>
             match x with
             | context [match _ with _ => _ end] => fail 1
             | _ => let Hc := fresh "Hcase" in destruct x eqn:Hc
             end
         end;
  try discriminate H; inversion H; subst; clear H.

(** ** What [unmarshallSearchReq] can return *)

(** X10. An error from [unmarshallSearchReq] is never a bare library error
    and never the timeout value: it is the read failure or the decoder's
    failure, wrapped with [%w] under the matching message, and it arises only
    for a reply whose content length is not 0.  The cause stays visible to
    [errors.Is]: the returned error counts as a cancellation exactly when the
    wrapped one is [context.Canceled]. *)
Theorem unmarshallSearchReq_errors_are_wrapped E res sr sr' e :
  unmarshallSearchReq E res sr = (sr', Some e) ->
  ContentLength res <> 0 /\
  exists cause,
    ((read_err (Body res) = Some cause /\
      e = Errorf_w "Failed to read response" (from_lib cause) /\
      sr' = with_Return sr (StatusCode res)) \/
     (read_err (Body res) = None /\
      xml_Unmarshal E (content (Body res)) (with_Return sr (StatusCode res))
      = (sr', Some cause) /\
      e = Errorf_w "Failed to unmarshall response" (from_lib cause))) /\
    is_cancellation e = is_cancellation (from_lib cause).
Proof.
  unfold unmarshallSearchReq, io_ReadAll. intros H.
  destruct (ContentLength res =? 0) eqn:Hlen; [discriminate|].
  split; [lia|].
  destruct (read_err (Body res)) as [cause|] eqn:Hread.
  - inversion H; subst. exists cause. split; [left; auto | reflexivity].
  - fold (with_Return sr (StatusCode res)) in H.
    destruct (xml_Unmarshal E (content (Body res)) (with_Return sr (StatusCode res)))
      as [sr2 [cause|]] eqn:Hxml; [|discriminate].
    inversion H; subst. exists cause. split; [right; auto | reflexivity].
Qed.

Lemma unmarshallSearchReq_errors_are_wrapped_witness :
  ContentLength (response_of 0 (Mock.reply 200 (-1) Mock.truncated_body)) <> 0 /\
  exists cause,
    ((read_err (Body (response_of 0 (Mock.reply 200 (-1) Mock.truncated_body)))
      = Some cause /\
      Errorf_w "Failed to unmarshall response"
        (from_lib (other_error "XML syntax error on line 1: unexpected EOF"))
      = Errorf_w "Failed to read response" (from_lib cause) /\
      with_Return (new_search Mock.healthy) 200
      = with_Return (new_search Mock.healthy)
          (StatusCode (response_of 0 (Mock.reply 200 (-1) Mock.truncated_body)))) \/
     (read_err (Body (response_of 0 (Mock.reply 200 (-1) Mock.truncated_body))) = None /\
      xml_Unmarshal Mock.healthy
        (content (Body (response_of 0 (Mock.reply 200 (-1) Mock.truncated_body))))
        (with_Return (new_search Mock.healthy)
           (StatusCode (response_of 0 (Mock.reply 200 (-1) Mock.truncated_body))))
      = (with_Return (new_search Mock.healthy) 200, Some cause) /\
      Errorf_w "Failed to unmarshall response"
        (from_lib (other_error "XML syntax error on line 1: unexpected EOF"))
      = Errorf_w "Failed to unmarshall response" (from_lib cause))) /\
    is_cancellation
      (Errorf_w "Failed to unmarshall response"
         (from_lib (other_error "XML syntax error on line 1: unexpected EOF")))
    = is_cancellation (from_lib cause).
Proof.
  apply (unmarshallSearchReq_errors_are_wrapped Mock.healthy
           (response_of 0 (Mock.reply 200 (-1) Mock.truncated_body))
           (new_search Mock.healthy)).
  vm_compute. reflexivity.
Defined.

(** ** How the job task ends *)

Section PollSteps.

Variable E : Env.
Variable conf : Config.
Variable ctx : Context.
Variable start : Z.

(** One pass: failures and the exit taken. *)
Lemma poll_exit sr st ctl st' :
  poll E conf ctx start sr st = (ctl, st') ->
  match ctl with
  | Returned => exists e, errs st' = errs st ++ [e]
  | Break sr' =>
      errs st' = errs st /\ Return sr' = 200 /\ isSome (Jobid sr') = true
  | Continue _ =>
      errs st' = errs st /\ clock st' - start <= MaxSearchWaitTime conf
  end.
Proof.
  unfold poll, makeRequest. intros H. invert_run H; cbn.
  all: try (eexists; reflexivity).
  all: unfold Since in *; cbn in *.
  all: try match goal with
           | Hb : (_ && _)%bool = true |- _ =>
               apply andb_prop in Hb; destruct Hb as [Hr Hj]
           end.
  all: repeat split; try lia; try assumption.
Qed.

(** One pass: the clock, the sleeps and the requests. *)
Lemma poll_time sr st ctl st' :
  poll E conf ctx start sr st = (ctl, st') ->
  clock st <= clock st' /\
  (requests st' <= S (requests st))%nat /\
  (requests st <= requests st')%nat /\
  (sleeps st' = sleeps st \/
   (sleeps st' = S (sleeps st) /\ clock st + 2 * Second <= clock st')).
Proof.
  unfold poll, makeRequest. intros H. invert_run H; cbn.
  all: repeat split; try lia.
  all: try (left; reflexivity).
  all: right; split; [reflexivity | unfold Second; lia].
Qed.

(** The loop as a whole: no datapoint; one failure exactly on a return from
    inside, none on the break, which is taken only with status 200 and a job
    id. *)
Lemma poll_loop_exit fuel : forall sr st r st',
  poll_loop E conf fuel ctx start sr st = Some (r, st') ->
  mb st' = mb st /\
  match r with
  | None => exists e, errs st' = errs st ++ [e]
  | Some sr' => errs st' = errs st /\ Return sr' = 200 /\ Jobid sr' <> None
  end.
Proof.
  induction fuel as [|fuel IH]; intros sr st r st' H; [discriminate|].
  split; [exact (poll_loop_mb E conf _ ctx start _ _ _ _ H)|].
  simpl in H.
  pose proof (poll_exit sr st) as Hstep.
  destruct (poll E conf ctx start sr st) as [[sr1| |sr1] st1].
  - inversion H; subst. destruct (Hstep _ _ eq_refl) as [He [Hr Hj]].
    repeat split; auto. destruct (Jobid sr1); [discriminate | discriminate Hj].
  - inversion H; subst. exact (Hstep _ _ eq_refl).
  - destruct (Hstep _ _ eq_refl) as [He _].
    destruct (IH _ _ _ _ H) as [_ Hrest]. rewrite He in Hrest. exact Hrest.
Qed.

(** Sleeps against the clock and against the wait: [k] sleeps take at least
    [2k] seconds, and a pass that goes round again is within the wait. *)
Lemma poll_loop_sleeps fuel : forall sr st r st',
  poll_loop E conf fuel ctx start sr st = Some (r, st') ->
  (sleeps st <= sleeps st')%nat /\
  clock st + 2 * Second * (Z.of_nat (sleeps st') - Z.of_nat (sleeps st)) <= clock st' /\
  (sleeps st' = sleeps st \/
   2 * Second * (Z.of_nat (sleeps st') - Z.of_nat (sleeps st) - 1)
   <= Z.max 0 (MaxSearchWaitTime conf - (clock st - start))).
Proof.
  induction fuel as [|fuel IH]; intros sr st r st' H; [discriminate|].
  simpl in H.
  pose proof (poll_time sr st) as Ht. pose proof (poll_exit sr st) as Hx.
  destruct (poll E conf ctx start sr st) as [[sr1| |sr1] st1].
  1,2: inversion H; subst;
       destruct (Ht _ _ eq_refl) as [Hc [_ [_ [Hs|[Hs Hc2]]]]];
       rewrite Hs; unfold Second in *; repeat split; try lia.
  destruct (Ht _ _ eq_refl) as [Hc [_ [_ Hs]]].
  destruct (Hx _ _ eq_refl) as [_ Hw].
  destruct (IH _ _ _ _ H) as [Hle [Hclk Hbound]].
  unfold Second in *.
  destruct Hs as [Hs|[Hs Hc2]]; rewrite Hs in *; repeat split; try lia.
Qed.

End PollSteps.

(** The walk over the fields touches the builder and the accumulator only. *)
Lemma record_fields_frame E now fs : forall indexName st,
  clock (record_fields E now fs indexName st) = clock st /\
  requests (record_fields E now fs indexName st) = requests st /\
  sleeps (record_fields E now fs indexName st) = sleeps st /\
  open_bodies (record_fields E now fs indexName st) = open_bodies st.
Proof.
  induction fs as [|f fs IH]; intros indexName st; simpl; [auto|].
  destruct (String.eqb (FieldName f) "indexname"); [apply IH|].
  destruct (String.eqb (FieldName f) "By"); [|apply IH].
  destruct (strconv_ParseFloat E (Value f));
    match goal with |- context [record_fields E now fs indexName ?s] =>
      destruct (IH indexName s) as [H1 [H2 [H3 H4]]] end;
    rewrite H1, H2, H3, H4; auto.
Qed.

(** X1. However an enabled license-usage task ends, it ends in one of two
    ways.  Either the polling loop returned from inside: then the task's
    final state is the loop's, with exactly one failure added and no datapoint
    recorded.  Or the loop was left by its [break], with the search response
    [sr'] it had decoded last, of status 200 and carrying a job id: then
    polling added no failure and no datapoint, the task's final state is the
    walk over the fields of that very response, and its datapoints and
    failures are exactly those the mapping gives for these fields. *)
Theorem license_task_outcome E conf fuel ctx now st st' :
  task_enabled conf LicenseUsageByIndex = true ->
  scrapeLicenseUsageByIndex E conf fuel ctx now st = Some st' ->
  (poll_loop E conf fuel ctx (clock st) (new_search E) st = Some (None, st') /\
   mb st' = mb st /\
   exists e, errs st' = errs st ++ [e]) \/
  (exists sr' st1,
      poll_loop E conf fuel ctx (clock st) (new_search E) st = Some (Some sr', st1) /\
      Return sr' = 200 /\ Jobid sr' <> None /\
      mb st1 = mb st /\ errs st1 = errs st /\
      st' = record_fields E now (Fields sr') "" st1 /\
      mb st' = mb st ++ spec_points E now [] (Fields sr') /\
      errs st' = errs st ++ spec_errors E (Fields sr')).
Proof.
  intros Hon H. unfold scrapeLicenseUsageByIndex in H. simpl in Hon.
  rewrite Hon in H. cbn [negb] in H. fold (new_search E) in H.
  destruct (poll_loop E conf fuel ctx (clock st) (new_search E) st)
    as [[[sr'|] st1]|] eqn:Hl; [| |discriminate]; inversion H; subst; clear H.
  - destruct (poll_loop_exit E conf ctx _ _ _ _ _ _ Hl) as [Hm [He [Hr Hj]]].
    right. exists sr', st1.
    destruct (record_fields_refines E now (Fields sr') [] st1) as [Hmb Herr].
    change (most_recent_indexname []) with "" in Hmb, Herr.
    rewrite Hmb, Herr, Hm, He. repeat split; auto.
  - destruct (poll_loop_exit E conf ctx _ _ _ _ _ _ Hl) as [Hm He].
    left. auto.
Qed.

Lemma license_task_outcome_witness :
  (poll_loop Mock.healthy (Mock.config true false (60 * Second)) 2 background
     (clock Mock.idle_at_5s) (new_search Mock.healthy) Mock.idle_at_5s
   = Some (None,
           mkState [] [SplunkLicenseIndexUsage_dp 7 42 "main"] (8000 * Mock.ms) 2 1 []) /\
   mb (mkState [] [SplunkLicenseIndexUsage_dp 7 42 "main"] (8000 * Mock.ms) 2 1 [])
   = mb Mock.idle_at_5s /\
   exists e,
     errs (mkState [] [SplunkLicenseIndexUsage_dp 7 42 "main"] (8000 * Mock.ms) 2 1 [])
     = errs Mock.idle_at_5s ++ [e]) \/
  (exists sr' st1,
      poll_loop Mock.healthy (Mock.config true false (60 * Second)) 2 background
        (clock Mock.idle_at_5s) (new_search Mock.healthy) Mock.idle_at_5s
      = Some (Some sr', st1) /\
      Return sr' = 200 /\ Jobid sr' <> None /\
      mb st1 = mb Mock.idle_at_5s /\ errs st1 = errs Mock.idle_at_5s /\
      mkState [] [SplunkLicenseIndexUsage_dp 7 42 "main"] (8000 * Mock.ms) 2 1 []
      = record_fields Mock.healthy 7 (Fields sr') "" st1 /\
      mb (mkState [] [SplunkLicenseIndexUsage_dp 7 42 "main"] (8000 * Mock.ms) 2 1 [])
      = mb Mock.idle_at_5s ++ spec_points Mock.healthy 7 [] (Fields sr') /\
      errs (mkState [] [SplunkLicenseIndexUsage_dp 7 42 "main"] (8000 * Mock.ms) 2 1 [])
      = errs Mock.idle_at_5s ++ spec_errors Mock.healthy (Fields sr')).
Proof.
  apply (license_task_outcome Mock.healthy (Mock.config true false (60 * Second))
           2 background 7 Mock.idle_at_5s).
  - reflexivity.
  - vm_compute. reflexivity.
Defined.

(** X7. The license-usage task sleeps a bounded number of times, whatever
    the remote end answers: [k] sleeps take at least [2k] seconds of the
    clock, and all but the last of them fit into the maximum search wait time,
    so [k] is at most that time (or 0 if it is negative) over two seconds,
    plus one. *)
Theorem license_task_sleeps_are_bounded E conf fuel ctx now st st' :
  scrapeLicenseUsageByIndex E conf fuel ctx now st = Some st' ->
  (sleeps st <= sleeps st')%nat /\
  clock st + 2 * Second * (Z.of_nat (sleeps st') - Z.of_nat (sleeps st)) <= clock st' /\
  2 * Second * (Z.of_nat (sleeps st') - Z.of_nat (sleeps st) - 1)
  <= Z.max 0 (MaxSearchWaitTime conf).
Proof.
  unfold scrapeLicenseUsageByIndex. intros H.
  destruct (negb _).
  { inversion H; subst. unfold Second. repeat split; lia. }
  destruct (poll_loop E conf fuel ctx (clock st) _ st) as [[r st1]|] eqn:Hl;
    [|discriminate].
  destruct (poll_loop_sleeps E conf ctx _ _ _ _ _ _ Hl) as [Hle [Hclk Hb]].
  assert (Hsame : clock st' = clock st1 /\ sleeps st' = sleeps st1).
  { destruct r as [sr'|]; inversion H; subst; [|auto].
    destruct (record_fields_frame E now (Fields sr') "" st1) as [H1 [_ [H3 _]]]. auto. }
  destruct Hsame as [Hc Hs]. rewrite Hc, Hs. unfold Second in *.
  repeat split; lia.
Qed.

Lemma license_task_sleeps_are_bounded_witness :
  (sleeps Mock.idle <= sleeps (mkState [errMaxSearchWaitTimeExceeded] [] (2050 * Mock.ms) 1 1 []))%nat /\
  clock Mock.idle
  + 2 * Second
    * (Z.of_nat (sleeps (mkState [errMaxSearchWaitTimeExceeded] [] (2050 * Mock.ms) 1 1 []))
       - Z.of_nat (sleeps Mock.idle))
  <= clock (mkState [errMaxSearchWaitTimeExceeded] [] (2050 * Mock.ms) 1 1 []) /\
  2 * Second
  * (Z.of_nat (sleeps (mkState [errMaxSearchWaitTimeExceeded] [] (2050 * Mock.ms) 1 1 []))
     - Z.of_nat (sleeps Mock.idle) - 1)
  <= Z.max 0 (MaxSearchWaitTime (Mock.config true true (100 * Mock.ms))).
Proof.
  apply (license_task_sleeps_are_bounded Mock.stuck
           (Mock.config true true (100 * Mock.ms)) 1 background 0 Mock.idle).
  vm_compute. reflexivity.
Defined.

(** ** The job task ends *)

(** Every call of the client takes at least [delta] nanoseconds. *)
Definition requests_take_at_least (E : Env) (delta : Z) : Prop :=
  forall k now req, delta <= Z.of_N (fst (transport E k now req)).

Section Progress.

Variable E : Env.
Variable conf : Config.
Variable ctx : Context.
Variable start : Z.
Variable delta : Z.

Hypothesis Hslow : requests_take_at_least E delta.

Lemma poll_progress sr st sr' st' :
  poll E conf ctx start sr st = (Continue sr', st') ->
  clock st + delta <= clock st'.
Proof.
  unfold poll, makeRequest. intros H.
  destruct (createRequest E ctx sr) as [req|err]; [|discriminate].
  pose proof (Hslow (requests st) (clock st) (Some req)) as Hd.
  destruct (transport E (requests st) (clock st) (Some req)) as [took out].
  cbn [fst] in Hd.
  invert_run H; cbn; lia.
Qed.

Lemma poll_loop_ends fuel : forall sr st,
  MaxSearchWaitTime conf - (clock st - start) < delta * Z.of_nat (S fuel) ->
  exists r st',
    poll_loop E conf (S fuel) ctx start sr st = Some (r, st') /\
    (requests st' <= requests st + S fuel)%nat.
Proof.
  induction fuel as [|fuel IH]; intros sr st Hfuel.
  - cbn [poll_loop].
    pose proof (poll_progress sr st) as Hp. pose proof (poll_exit E conf ctx start sr st) as Hx.
    pose proof (poll_time E conf ctx start sr st) as Ht.
    destruct (poll E conf ctx start sr st) as [[sr1| |sr1] st1].
    + eexists _, _. split; [reflexivity|]. destruct (Ht _ _ eq_refl) as [_ [Hr _]]. lia.
    + eexists _, _. split; [reflexivity|]. destruct (Ht _ _ eq_refl) as [_ [Hr _]]. lia.
    + exfalso. specialize (Hp _ _ eq_refl). destruct (Hx _ _ eq_refl) as [_ Hw]. lia.
  - change (poll_loop E conf (S (S fuel)) ctx start sr st)
      with (match poll E conf ctx start sr st with
            | (Break s, t) => Some (Some s, t)
            | (Returned, t) => Some (None, t)
            | (Continue s, t) => poll_loop E conf (S fuel) ctx start s t
            end).
    pose proof (poll_progress sr st) as Hp. pose proof (poll_exit E conf ctx start sr st) as Hx.
    pose proof (poll_time E conf ctx start sr st) as Ht.
    destruct (poll E conf ctx start sr st) as [[sr1| |sr1] st1].
    + eexists _, _. split; [reflexivity|]. destruct (Ht _ _ eq_refl) as [_ [Hr _]]. lia.
    + eexists _, _. split; [reflexivity|]. destruct (Ht _ _ eq_refl) as [_ [Hr _]]. lia.
    + specialize (Hp _ _ eq_refl). destruct (Ht _ _ eq_refl) as [_ [Hr _]].
      destruct (IH sr1 st1) as [r [st' [Hl Hq]]]; [lia|].
      exists r, st'. split; [exact Hl | lia].
Qed.

End Progress.

(** X8. The license-usage task always comes to an end when time passes: if
    every call of the client takes at least [delta], then whatever the
    replies (statuses, bodies, failures), the task is over within any number
    of passes that, at [delta] each, outlast the maximum search wait time
    ([delta] is positive then), and it has issued at most that many
    requests. *)
Theorem license_task_terminates E conf ctx now st delta fuel :
  requests_take_at_least E delta ->
  Z.max 0 (MaxSearchWaitTime conf) < delta * Z.of_nat fuel ->
  exists st',
    scrapeLicenseUsageByIndex E conf fuel ctx now st = Some st' /\
    (requests st' <= requests st + fuel)%nat.
Proof.
  intros Hslow Hfuel. unfold scrapeLicenseUsageByIndex.
  destruct (negb _); [exists st; split; [reflexivity | lia]|].
  destruct fuel as [|fuel]; [lia|].
  destruct (poll_loop_ends E conf ctx (clock st) delta Hslow fuel
              {| search := searchDict E "SplunkLicenseIndexUsageSearch";
                 Jobid := None; Return := 0; Fields := [] |} st)
    as [r [st1 [Hl Hq]]]; [lia|].
  rewrite Hl. destruct r as [sr'|].
  - eexists. split; [reflexivity|].
    destruct (record_fields_frame E now (Fields sr') "" st1) as [_ [H2 _]].
    rewrite H2. exact Hq.
  - exists st1. split; [reflexivity | exact Hq].
Qed.

Lemma license_task_terminates_witness :
  exists st',
    scrapeLicenseUsageByIndex Mock.stuck (Mock.config true true (100 * Mock.ms))
      3 background 0 Mock.idle = Some st' /\
    (requests st' <= requests Mock.idle + 3)%nat.
Proof.
  apply (license_task_terminates Mock.stuck (Mock.config true true (100 * Mock.ms))
           background 0 Mock.idle (50 * Mock.ms) 3).
  - intros k t req. vm_compute. discriminate.
  - vm_compute. reflexivity.
Defined.

(** ** Response bodies *)

(** Handles are given out in the order of the requests: those still open
    belong to requests already made. *)
Definition handles_fresh (st : State) : Prop :=
  Forall (fun h => (h < requests st)%nat) (open_bodies st).

Lemma close_last_opened l k :
  Forall (fun h => (h < k)%nat) l ->
  filter (fun h => negb (Nat.eqb h k)) (l ++ [k]) = l.
Proof.
  intros Hl. rewrite filter_app. simpl. rewrite Nat.eqb_refl. simpl.
  rewrite app_nil_r. induction Hl as [|h l Hh Hl IH]; [reflexivity|].
  simpl. destruct (Nat.eqb h k) eqn:Heq.
  - apply Nat.eqb_eq in Heq. lia.
  - simpl. rewrite IH. reflexivity.
Qed.

Lemma handles_fresh_later (l : list nat) k k' :
  (k <= k')%nat -> Forall (fun h => (h < k)%nat) l -> Forall (fun h => (h < k')%nat) l.
Proof. intros Hle Hl. eapply Forall_impl; [|exact Hl]. simpl. intros; lia. Qed.

Lemma unmarshallSearchReq_error_shape E res sr sr' e :
  unmarshallSearchReq E res sr = (sr', Some e) ->
  exists prefix cause, e = Errorf_w prefix cause.
Proof.
  unfold unmarshallSearchReq, io_ReadAll. intros H. invert_run H;
    eexists _, _; reflexivity.
Qed.

Section Bodies.

Variable E : Env.
Variable conf : Config.
Variable ctx : Context.
Variable start : Z.

Lemma poll_bodies sr st ctl st' :
  poll E conf ctx start sr st = (ctl, st') ->
  handles_fresh st ->
  handles_fresh st' /\
  (open_bodies st' = open_bodies st \/
   (ctl = Returned /\
    open_bodies st' = open_bodies st ++ [pred (requests st')] /\
    exists prefix cause, errs st' = errs st ++ [Errorf_w prefix cause])).
Proof.
  unfold poll, makeRequest, handles_fresh. intros H Hf.
  destruct (createRequest E ctx sr) as [req|err];
    [|inversion H; subst; cbn; auto].
  destruct (transport E (requests st) (clock st) (Some req)) as [took [r|err]];
    [|inversion H; subst; cbn; split; [eapply handles_fresh_later; [|exact Hf]; lia | auto]].
  destruct (unmarshallSearchReq E (response_of (requests st) r) sr) as [sr1 [e|]] eqn:Hu.
  - inversion H; subst; cbn. split.
    + apply Forall_app. split; [eapply handles_fresh_later; [|exact Hf]; lia|].
      repeat constructor.
    + right. destruct (unmarshallSearchReq_error_shape _ _ _ _ _ Hu) as [p [c Hc]].
      subst e. repeat split. eexists _, _. reflexivity.
  - assert (Hclosed : forall s,
              open_bodies (Close (Body (response_of (requests st) r)) s)
              = filter (fun h => negb (Nat.eqb h (requests st))) (open_bodies s))
      by reflexivity.
    invert_run H; cbn; rewrite (close_last_opened _ _ Hf);
      (split; [eapply handles_fresh_later; [|exact Hf]; lia | left; reflexivity]).
Qed.

Lemma poll_loop_bodies fuel : forall sr st r st',
  poll_loop E conf fuel ctx start sr st = Some (r, st') ->
  handles_fresh st ->
  handles_fresh st' /\
  (open_bodies st' = open_bodies st \/
   (r = None /\
    open_bodies st' = open_bodies st ++ [pred (requests st')] /\
    exists prefix cause, errs st' = errs st ++ [Errorf_w prefix cause])).
Proof.
  induction fuel as [|fuel IH]; intros sr st r st' H Hf; [discriminate|].
  simpl in H.
  pose proof (poll_bodies sr st) as Hb. pose proof (poll_exit E conf ctx start sr st) as Hx.
  destruct (poll E conf ctx start sr st) as [[sr1| |sr1] st1].
  - inversion H; subst. destruct (Hb _ _ eq_refl Hf) as [Hf' [Ho|[Hc _]]];
      [auto | discriminate].
  - inversion H; subst. destruct (Hb _ _ eq_refl Hf) as [Hf' [Ho|[_ Ho]]]; auto.
  - destruct (Hb _ _ eq_refl Hf) as [Hf' [Ho|[Hc _]]]; [|discriminate].
    destruct (Hx _ _ eq_refl) as [He _].
    destruct (IH _ _ _ _ H Hf') as [Hf'' Hrest].
    rewrite Ho, He in Hrest. auto.
Qed.

End Bodies.

(** X2. The license-usage task leaves a response body open in one case only.
    If the bodies open beforehand belong to earlier requests, then after the
    task either the same bodies are open as before (each body it obtained was
    closed), or the task ended on a failure to read or decode a reply, a
    wrapped error being the one failure it added; then exactly the body of
    its last request is left open, and no datapoint was recorded. *)
Theorem license_task_open_bodies E conf fuel ctx now st st' :
  handles_fresh st ->
  scrapeLicenseUsageByIndex E conf fuel ctx now st = Some st' ->
  open_bodies st' = open_bodies st \/
  (open_bodies st' = open_bodies st ++ [pred (requests st')] /\
   mb st' = mb st /\
   exists prefix cause, errs st' = errs st ++ [Errorf_w prefix cause]).
Proof.
  intros Hf H. unfold scrapeLicenseUsageByIndex in H.
  destruct (negb _); [inversion H; subst; auto|].
  destruct (poll_loop E conf fuel ctx (clock st) _ st) as [[r st1]|] eqn:Hl;
    [|discriminate].
  destruct (poll_loop_bodies E conf ctx _ _ _ _ _ _ Hl Hf) as [_ [Ho|[Hr [Ho He]]]].
  - left. destruct r as [sr'|]; inversion H; subst; [|exact Ho].
    destruct (record_fields_frame E now (Fields sr') "" st1) as [_ [_ [_ H4]]].
    rewrite H4. exact Ho.
  - right. subst r. inversion H; subst.
    repeat split; [exact Ho | exact (poll_loop_mb E conf _ ctx _ _ _ _ _ Hl) | exact He].
Qed.

Lemma license_task_open_bodies_witness :
  open_bodies (mkState [] [SplunkLicenseIndexUsage_dp 7 42 "main"] (8000 * Mock.ms) 2 1 [])
  = open_bodies Mock.idle_at_5s \/
  (open_bodies (mkState [] [SplunkLicenseIndexUsage_dp 7 42 "main"] (8000 * Mock.ms) 2 1 [])
   = open_bodies Mock.idle_at_5s
       ++ [pred (requests (mkState [] [SplunkLicenseIndexUsage_dp 7 42 "main"]
                             (8000 * Mock.ms) 2 1 []))] /\
   mb (mkState [] [SplunkLicenseIndexUsage_dp 7 42 "main"] (8000 * Mock.ms) 2 1 [])
   = mb Mock.idle_at_5s /\
   exists prefix cause,
     errs (mkState [] [SplunkLicenseIndexUsage_dp 7 42 "main"] (8000 * Mock.ms) 2 1 [])
     = errs Mock.idle_at_5s ++ [Errorf_w prefix cause]).
Proof.
  apply (license_task_open_bodies Mock.healthy (Mock.config true false (60 * Second))
           2 background 7 Mock.idle_at_5s).
  - constructor.
  - vm_compute. reflexivity.
Defined.

(** ** The throughput task *)

Lemma record_entries_frame now es : forall st,
  clock (record_entries now es st) = clock st /\
  requests (record_entries now es st) = requests st /\
  sleeps (record_entries now es st) = sleeps st /\
  open_bodies (record_entries now es st) = open_bodies st.
Proof.
  unfold record_entries. induction es as [|e es IH]; intros st; simpl; [auto|].
  match goal with |- context [fold_left ?f es ?s] =>
    destruct (IH s) as [H1 [H2 [H3 H4]]] end.
  rewrite H1, H2, H3, H4. auto.
Qed.

(** The datapoint an entry of the decoded record becomes (line 193). *)
Definition throughput_point (now : Timestamp) (entry : idxTEntry) : datapoint :=
  SplunkIndexerThroughput_dp now (1000 * AvgKb (Content entry))%float
    (Status (Content entry)).

Lemma record_entries_points now es : forall st,
  mb (record_entries now es st) = mb st ++ map (throughput_point now) es.
Proof.
  unfold record_entries. induction es as [|e es IH]; intros st; simpl.
  - rewrite app_nil_r. reflexivity.
  - rewrite IH. simpl. rewrite <- app_assoc. reflexivity.
Qed.

(** X3. The throughput task closes the body of the reply it obtained on
    every path, since the close is deferred right after the request: if the
    bodies open beforehand belong to earlier requests, the same bodies and no
    others are open afterwards, whether reading or decoding failed or not. *)
Theorem throughput_task_closes_its_body E conf ctx now st :
  handles_fresh st ->
  open_bodies (scrapeIndexThroughput E conf ctx now st) = open_bodies st /\
  handles_fresh (scrapeIndexThroughput E conf ctx now st).
Proof.
  intros Hf.
  assert (Hgoal : open_bodies (scrapeIndexThroughput E conf ctx now st) = open_bodies st /\
                  (requests st <= requests (scrapeIndexThroughput E conf ctx now st))%nat).
  { unfold scrapeIndexThroughput at 1 2.
    destruct (negb _); [auto|]. unfold makeRequest.
    destruct (createAPIRequest E ctx (apiDict E "SplunkIndexerThroughput")) as [rq|cerr].
    all: match goal with
         | |- context [transport ?e ?k ?t ?r] =>
             destruct (transport e k t r) as [took [rep|terr]]
         end.
    all: cbn; auto.
    all: unfold io_ReadAll;
         match goal with
         | |- context [json_Unmarshal ?e ?b ?i] =>
             destruct (json_Unmarshal e b i) as [it jerr]
         end.
    all: match goal with
         | |- context [record_entries ?n ?es ?s] =>
             destruct (record_entries_frame n es s) as [_ [H2 [_ H4]]]
         end.
    all: unfold Close; cbn; rewrite H4, H2; cbn.
    all: case_split; cbn; rewrite (close_last_opened _ _ Hf); auto. }
  destruct Hgoal as [Ho Hr]. split; [exact Ho|].
  unfold handles_fresh. rewrite Ho. eapply handles_fresh_later; [exact Hr | exact Hf].
Qed.

Lemma throughput_task_closes_its_body_witness :
  open_bodies
    (scrapeIndexThroughput
       (Mock.env [(100000000%N, inl (Mock.reply 200 (-1) Mock.mistyped_body))] true)
       (Mock.config false true (60 * Second)) background 7 Mock.idle)
  = open_bodies Mock.idle /\
  handles_fresh
    (scrapeIndexThroughput
       (Mock.env [(100000000%N, inl (Mock.reply 200 (-1) Mock.mistyped_body))] true)
       (Mock.config false true (60 * Second)) background 7 Mock.idle).
Proof.
  apply (throughput_task_closes_its_body
           (Mock.env [(100000000%N, inl (Mock.reply 200 (-1) Mock.mistyped_body))] true)
           (Mock.config false true (60 * Second)) background 7 Mock.idle).
  constructor.
Defined.

(** X4. An enabled throughput task issues exactly one request per
    invocation and never sleeps, whatever fails on the way: no retry, no
    polling.  It adds at most three failures. *)
Theorem throughput_task_makes_one_request E conf ctx now st :
  task_enabled conf IndexThroughput = true ->
  requests (scrapeIndexThroughput E conf ctx now st) = S (requests st) /\
  sleeps (scrapeIndexThroughput E conf ctx now st) = sleeps st /\
  clock st <= clock (scrapeIndexThroughput E conf ctx now st) /\
  (List.length (errs (scrapeIndexThroughput E conf ctx now st))
   <= List.length (errs st) + 3)%nat.
Proof.
  intros Hon. unfold scrapeIndexThroughput. simpl in Hon. rewrite Hon. cbn [negb].
  unfold makeRequest.
  destruct (createAPIRequest E ctx (apiDict E "SplunkIndexerThroughput")) as [rq|cerr].
  all: match goal with
       | |- context [transport ?e ?k ?t ?r] =>
           destruct (transport e k t r) as [took [rep|terr]]
       end.
  all: cbn; try rewrite !length_app; cbn; try (repeat split; lia).
  all: unfold io_ReadAll;
       match goal with
       | |- context [json_Unmarshal ?e ?b ?i] =>
           destruct (json_Unmarshal e b i) as [it jerr]
       end.
  all: match goal with
       | |- context [record_entries ?n ?es ?s] =>
           destruct (record_entries_frame n es s) as [H1 [H2 [H3 _]]];
           pose proof (record_entries_errs n es s) as H5
       end.
  all: unfold Close; cbn; rewrite H1, H2, H3, H5.
  all: case_split; cbn; rewrite ?length_app; cbn; repeat split; lia.
Qed.

Lemma throughput_task_makes_one_request_witness :
  requests (scrapeIndexThroughput (Mock.env [] false)
              (Mock.config false true (60 * Second)) background 7 Mock.idle)
  = S (requests Mock.idle) /\
  sleeps (scrapeIndexThroughput (Mock.env [] false)
            (Mock.config false true (60 * Second)) background 7 Mock.idle)
  = sleeps Mock.idle /\
  clock Mock.idle
  <= clock (scrapeIndexThroughput (Mock.env [] false)
              (Mock.config false true (60 * Second)) background 7 Mock.idle) /\
  (List.length (errs (scrapeIndexThroughput (Mock.env [] false)
                        (Mock.config false true (60 * Second)%Z) background 7%Z
                        Mock.idle))
   <= List.length (errs Mock.idle) + 3)%nat.
Proof.
  apply (throughput_task_makes_one_request (Mock.env [] false)
           (Mock.config false true (60 * Second)) background 7 Mock.idle).
  reflexivity.
Defined.

(** X5. Once its request is answered, the throughput task records one
    datapoint per entry of the record the JSON decoder leaves behind, in the
    order of the entries, each with the entry's average multiplied by 1000 as
    value and the entry's status as dimension; and when neither the read nor
    the decoding fails it adds no failure. *)
Theorem throughput_task_maps_entries E conf ctx now st req took r :
  task_enabled conf IndexThroughput = true ->
  createAPIRequest E ctx (apiDict E "SplunkIndexerThroughput") = inl req ->
  transport E (requests st) (clock st) (Some req) = (took, inl r) ->
  mb (scrapeIndexThroughput E conf ctx now st)
  = mb st ++ map (throughput_point now)
               (Entries (fst (json_Unmarshal E (reply_body r) {| Entries := [] |}))) /\
  (reply_read_err r = None ->
   snd (json_Unmarshal E (reply_body r) {| Entries := [] |}) = None ->
   errs (scrapeIndexThroughput E conf ctx now st) = errs st).
Proof.
  intros Hon Hreq Htr. unfold scrapeIndexThroughput. simpl in Hon.
  rewrite Hon, Hreq. cbn [negb]. unfold makeRequest. rewrite Htr.
  unfold io_ReadAll, response_of. cbn [Body content read_err].
  destruct (json_Unmarshal E (reply_body r) {| Entries := [] |}) as [it jerr].
  cbn [fst snd]. rewrite Close_mb, Close_errs, record_entries_points, record_entries_errs.
  split.
  - destruct (reply_read_err r), jerr; reflexivity.
  - intros Hr Hj. rewrite Hr, Hj. reflexivity.
Qed.

Lemma throughput_task_maps_entries_witness :
  mb (scrapeIndexThroughput
        (Mock.env [(100000000%N, inl (Mock.reply 200 (-1) Mock.throughput_body))] true)
        (Mock.config false true (60 * Second)) background 7 Mock.idle)
  = mb Mock.idle
      ++ map (throughput_point 7)
           (Entries (fst (json_Unmarshal
                            (Mock.env [(100000000%N,
                                        inl (Mock.reply 200 (-1) Mock.throughput_body))] true)
                            (reply_body (Mock.reply 200 (-1) Mock.throughput_body))
                            {| Entries := [] |}))) /\
  (reply_read_err (Mock.reply 200 (-1) Mock.throughput_body) = None ->
   snd (json_Unmarshal
          (Mock.env [(100000000%N, inl (Mock.reply 200 (-1) Mock.throughput_body))] true)
          (reply_body (Mock.reply 200 (-1) Mock.throughput_body))
          {| Entries := [] |}) = None ->
   errs (scrapeIndexThroughput
           (Mock.env [(100000000%N, inl (Mock.reply 200 (-1) Mock.throughput_body))] true)
           (Mock.config false true (60 * Second)) background 7 Mock.idle)
   = errs Mock.idle).
Proof.
  apply (throughput_task_maps_entries
           (Mock.env [(100000000%N, inl (Mock.reply 200 (-1) Mock.throughput_body))] true)
           (Mock.config false true (60 * Second)) background 7 Mock.idle
           (Mock.new_request background "GET" "/services/server/introspection/indexer" "")
           100000000%N (Mock.reply 200 (-1) Mock.throughput_body)).
  all: reflexivity.
Defined.

Example throughput_scaled_by_1000 :
  mb (scrapeIndexThroughput
        (Mock.env [(100000000%N, inl (Mock.reply 200 (-1) Mock.throughput_body))] true)
        (Mock.config false true (60 * Second)) background 7 Mock.idle)
  = [SplunkIndexerThroughput_dp 7 1500 "ok"].
Proof. vm_compute. reflexivity. Qed.

(** ** The walk over the fields, again *)

(** X9. Every [By] field is accounted for: the walk over the decoded fields
    adds, for each [By] field, either one datapoint or one failure, and
    nothing for any other field; a value that does not parse does not stop
    the walk.  So the new datapoints and the new failures together are as
    many as the [By] fields. *)
Theorem every_By_field_is_accounted_for E now fs indexName st :
  (List.length (mb (record_fields E now fs indexName st))
   + List.length (errs (record_fields E now fs indexName st))
   = List.length (mb st) + List.length (errs st) + List.length (filter is_By fs))%nat.
Proof.
  revert indexName st. induction fs as [|f fs IH]; intros indexName st; simpl.
  - lia.
  - fold (is_indexname f). fold (is_By f).
    destruct (is_indexname f) eqn:Hi.
    + rewrite (indexname_is_not_By f Hi). apply IH.
    + destruct (is_By f); [|apply IH].
      destruct (strconv_ParseFloat E (Value f)); rewrite IH; simpl;
        rewrite length_app; simpl; lia.
Qed.

(** The dimension in force after the fields [fs], when it was [indexName]
    before them. *)
Definition dimension_after (indexName : string) (fs : list field) : string :=
  match find is_indexname (rev fs) with
  | Some f => Value f
  | None => indexName
  end.

Lemma dimension_after_cons indexName f fs :
  dimension_after indexName (f :: fs)
  = dimension_after (if is_indexname f then Value f else indexName) fs.
Proof.
  unfold dimension_after. simpl.
  induction (rev fs) as [|g l IH]; simpl.
  - destruct (is_indexname f); reflexivity.
  - destruct (is_indexname g); [reflexivity | exact IH].
Qed.

(** X12. Walking a sequence of fields in two parts gives what walking it in
    one go gives, provided the second part starts from the dimension the
    first part ends with: the dimension set by an [indexname] field stays in
    force for all later [By] fields, across rows, until the next [indexname]
    field replaces it. *)
Theorem record_fields_in_two_parts E now fs1 fs2 indexName st :
  record_fields E now (fs1 ++ fs2) indexName st
  = record_fields E now fs2 (dimension_after indexName fs1)
      (record_fields E now fs1 indexName st).
Proof.
  revert indexName st. induction fs1 as [|f fs1 IH]; intros indexName st.
  - reflexivity.
  - rewrite dimension_after_cons. simpl. fold (is_indexname f).
    destruct (is_indexname f); [apply IH|].
    destruct (String.eqb (FieldName f) "By"); [|apply IH].
    destruct (strconv_ParseFloat E (Value f)); apply IH.
Qed.

Example dimension_carries_over_rows :
  mb (record_fields Mock.healthy 7
        ([ {| FieldName := "indexname"; Value := "main" |};
           {| FieldName := "By"; Value := "42.0" |} ]
         ++ [ {| FieldName := "By"; Value := "1.5" |} ]) "" Mock.idle)
  = [ SplunkLicenseIndexUsage_dp 7 42 "main"; SplunkLicenseIndexUsage_dp 7 1 "main" ].
Proof. reflexivity. Qed.

(** ** Both tasks, and the cycle *)

Definition is_license_point (d : datapoint) : Prop :=
  match d with SplunkLicenseIndexUsage_dp _ _ _ => True | _ => False end.

Definition is_throughput_point (d : datapoint) : Prop :=
  match d with SplunkIndexerThroughput_dp _ _ _ => True | _ => False end.

Lemma spec_points_are_license_points E now fs : forall before,
  Forall is_license_point (spec_points E now before fs).
Proof.
  unfold spec_points. intros before. apply Forall_flat_map, Forall_forall.
  intros i _. unfold spec_point_at.
  destruct (nth_error fs i) as [f|]; [|constructor].
  destruct (is_By f); [|constructor].
  destruct (strconv_ParseFloat E (Value f)); repeat constructor.
Qed.

Lemma scrapeLicenseUsageByIndex_appends E conf fuel ctx now st st' :
  scrapeLicenseUsageByIndex E conf fuel ctx now st = Some st' ->
  exists es ds,
    errs st' = errs st ++ es /\ mb st' = mb st ++ ds /\ Forall is_license_point ds.
Proof.
  unfold scrapeLicenseUsageByIndex. intros H.
  destruct (negb _).
  { inversion H; subst. exists [], []. rewrite !app_nil_r. auto. }
  destruct (poll_loop E conf fuel ctx (clock st) _ st) as [[[sr'|] st1]|] eqn:Hl;
    [| |discriminate]; inversion H; subst; clear H.
  - destruct (poll_loop_exit E conf ctx _ _ _ _ _ _ Hl) as [Hm [He _]].
    destruct (record_fields_refines E now (Fields sr') [] st1) as [Hmb Herr].
    change (most_recent_indexname []) with "" in Hmb, Herr.
    exists (spec_errors E (Fields sr')), (spec_points E now [] (Fields sr')).
    rewrite Hmb, Herr, Hm, He.
    repeat split. apply spec_points_are_license_points.
  - destruct (poll_loop_exit E conf ctx _ _ _ _ _ _ Hl) as [Hm [e He]].
    exists [e], []. rewrite app_nil_r. auto.
Qed.

Lemma scrapeIndexThroughput_appends_errs E conf ctx now st :
  exists es, errs (scrapeIndexThroughput E conf ctx now st) = errs st ++ es.
Proof.
  unfold scrapeIndexThroughput.
  destruct (negb _); [exists []; symmetry; apply app_nil_r|].
  unfold makeRequest.
  destruct (createAPIRequest E ctx (apiDict E "SplunkIndexerThroughput")) as [rq|cerr].
  all: match goal with
       | |- context [transport ?e ?k ?t ?r] =>
           destruct (transport e k t r) as [took [rep|terr]]
       end.
  all: unfold io_ReadAll;
       try match goal with
           | |- context [json_Unmarshal ?e ?b ?i] =>
               destruct (json_Unmarshal e b i) as [it jerr]
           end.
  all: try rewrite Close_errs, record_entries_errs.
  all: cbn [response_of Body content read_err].
  all: case_split; cbn.
  all: first [ eexists; repeat rewrite <- app_assoc; reflexivity
             | exists []; symmetry; apply app_nil_r ].
Qed.

Lemma scrapeIndexThroughput_appends_points E conf ctx now st :
  exists ds,
    mb (scrapeIndexThroughput E conf ctx now st) = mb st ++ ds /\
    Forall is_throughput_point ds.
Proof.
  unfold scrapeIndexThroughput.
  destruct (negb _); [exists []; split; [symmetry; apply app_nil_r | constructor]|].
  unfold makeRequest.
  destruct (createAPIRequest E ctx (apiDict E "SplunkIndexerThroughput")) as [rq|cerr].
  all: match goal with
       | |- context [transport ?e ?k ?t ?r] =>
           destruct (transport e k t r) as [took [rep|terr]]
       end.
  all: unfold io_ReadAll;
       try match goal with
           | |- context [json_Unmarshal ?e ?b ?i] =>
               destruct (json_Unmarshal e b i) as [it jerr]
           end.
  all: try rewrite Close_mb, record_entries_points.
  all: cbn [response_of Body content read_err].
  all: case_split; cbn.
  all: first [ eexists; split;
               [ reflexivity
               | apply Forall_map, Forall_forall; intros; exact I ]
             | exists []; split; [symmetry; apply app_nil_r | constructor] ].
Qed.

(** X6. Neither task removes or rewrites what is already there: an
    invocation only appends to the error accumulator and to the recorded
    datapoints, and what it appends are points of its own metric. *)
Theorem tasks_only_append E conf fuel ctx now t st st' :
  run_task E conf fuel ctx now t st = Some st' ->
  exists es ds,
    errs st' = errs st ++ es /\
    mb st' = mb st ++ ds /\
    Forall (match t with
            | LicenseUsageByIndex => is_license_point
            | IndexThroughput => is_throughput_point
            end) ds.
Proof.
  destruct t; simpl; intros H.
  - exact (scrapeLicenseUsageByIndex_appends E conf fuel ctx now st st' H).
  - inversion H; subst.
    destruct (scrapeIndexThroughput_appends_errs E conf ctx now st) as [es He].
    destruct (scrapeIndexThroughput_appends_points E conf ctx now st) as [ds [Hd Hf]].
    exists es, ds. auto.
Qed.

Lemma tasks_only_append_witness :
  exists es ds,
    errs (mkState [from_lib (other_error "earlier")]
            [SplunkIndexerThroughput_dp 3 1500 "ok";
             SplunkLicenseIndexUsage_dp 7 42 "main"] (8000 * Mock.ms) 2 1 [])
    = errs (mkState [from_lib (other_error "earlier")]
              [SplunkIndexerThroughput_dp 3 1500 "ok"] (5 * Second) 0 0 []) ++ es /\
    mb (mkState [from_lib (other_error "earlier")]
          [SplunkIndexerThroughput_dp 3 1500 "ok";
           SplunkLicenseIndexUsage_dp 7 42 "main"] (8000 * Mock.ms) 2 1 [])
    = mb (mkState [from_lib (other_error "earlier")]
            [SplunkIndexerThroughput_dp 3 1500 "ok"] (5 * Second) 0 0 []) ++ ds /\
    Forall is_license_point ds.
Proof.
  apply (tasks_only_append Mock.healthy (Mock.config true false (60 * Second))
           2 background 7 LicenseUsageByIndex
           (mkState [from_lib (other_error "earlier")]
              [SplunkIndexerThroughput_dp 3 1500 "ok"] (5 * Second) 0 0 [])).
  vm_compute. reflexivity.
Defined.

(** X11. What a cycle returns is made of what its two tasks did, and of
    nothing else.  The license-usage task runs from an empty accumulator and
    the throughput task from the state the license-usage task ends in.  A
    datapoint is in the snapshot exactly when the builder held it before the
    cycle, or the license-usage task recorded it, or the throughput task
    recorded it; and the combined error is nil exactly when neither task
    added a failure, whatever the accumulator held before the cycle. *)
Theorem scrape_returns_what_its_tasks_did E conf fuel ctx st metrics err st' :
  scrape E conf fuel ctx st = Some (metrics, err, st') ->
  exists st1 license throughput license_errs throughput_errs,
    scrapeLicenseUsageByIndex E conf fuel ctx (NewTimestampFromTime (clock st))
      (with_errs st []) = Some st1 /\
    errs st1 = license_errs /\
    mb st1 = mb st ++ license /\
    errs (scrapeIndexThroughput E conf ctx (NewTimestampFromTime (clock st)) st1)
    = errs st1 ++ throughput_errs /\
    mb (scrapeIndexThroughput E conf ctx (NewTimestampFromTime (clock st)) st1)
    = mb st1 ++ throughput /\
    Forall is_license_point license /\
    Forall is_throughput_point throughput /\
    (forall d, In d metrics <-> In d (mb st) \/ In d license \/ In d throughput) /\
    (err = None <-> license_errs = [] /\ throughput_errs = []).
Proof.
  unfold scrape. intros H.
  destruct (scrapeLicenseUsageByIndex E conf fuel ctx _ (with_errs st [])) as [st1|] eqn:H1;
    [|discriminate].
  destruct (scrapeLicenseUsageByIndex_appends _ _ _ _ _ _ _ H1) as [es1 [ds1 [He1 [Hd1 Hf1]]]].
  set (now := NewTimestampFromTime (clock (with_errs st []))) in *.
  destruct (scrapeIndexThroughput_appends_errs E conf ctx now st1) as [es2 He2].
  destruct (scrapeIndexThroughput_appends_points E conf ctx now st1) as [ds2 [Hd2 Hf2]].
  unfold Emit in H. inversion H; subst; clear H.
  cbn in He1, Hd1. cbn [errs with_mb].
  exists st1, ds1, ds2, es1, es2.
  change (NewTimestampFromTime (clock st)) with now.
  repeat split; auto.
  - rewrite Hd2, Hd1. intros Hin. apply in_app_or in Hin. destruct Hin as [Hin|Hin];
      [apply in_app_or in Hin; tauto | tauto].
  - rewrite Hd2, Hd1. intros [Hin|[Hin|Hin]]; apply in_or_app;
      [left; apply in_or_app; tauto | left; apply in_or_app; tauto | tauto].
  - match goal with
    | Hn : Combine _ = None |- _ =>
        rewrite He2, He1 in Hn; destruct es1; [reflexivity | discriminate Hn]
    end.
  - match goal with
    | Hn : Combine _ = None |- _ =>
        rewrite He2, He1 in Hn;
        destruct es1; [destruct es2; [reflexivity | discriminate Hn] | discriminate Hn]
    end.
  - intros [Hl Ht]. rewrite He2, He1, Hl, Ht. reflexivity.
Qed.

Lemma scrape_returns_what_its_tasks_did_witness :
  exists st1 license throughput license_errs throughput_errs,
    scrapeLicenseUsageByIndex Mock.healthy (Mock.config true true (60 * Second)) 2
      background (NewTimestampFromTime (clock Mock.idle_at_5s))
      (with_errs Mock.idle_at_5s []) = Some st1 /\
    errs st1 = license_errs /\
    mb st1 = mb Mock.idle_at_5s ++ license /\
    errs (scrapeIndexThroughput Mock.healthy (Mock.config true true (60 * Second))
            background (NewTimestampFromTime (clock Mock.idle_at_5s)) st1)
    = errs st1 ++ throughput_errs /\
    mb (scrapeIndexThroughput Mock.healthy (Mock.config true true (60 * Second))
          background (NewTimestampFromTime (clock Mock.idle_at_5s)) st1)
    = mb st1 ++ throughput /\
    Forall is_license_point license /\
    Forall is_throughput_point throughput /\
    (forall d,
        In d [SplunkLicenseIndexUsage_dp (5 * Second) 42 "main";
              SplunkIndexerThroughput_dp (5 * Second) 1500 "ok"]
        <-> In d (mb Mock.idle_at_5s) \/ In d license \/ In d throughput) /\
    (@None combined_error = None <-> license_errs = [] /\ throughput_errs = []).
Proof.
  apply (scrape_returns_what_its_tasks_did Mock.healthy
           (Mock.config true true (60 * Second))
           2%nat background Mock.idle_at_5s _ None
           (mkState [] [] (8100 * Mock.ms) 3%nat 1%nat [])).
  vm_compute. reflexivity.
Defined.

(** ** The timeout failure is never spurious *)

Lemma spec_errors_are_library_errors E fs :
  Forall (fun e => exists cause, e = from_lib cause) (spec_errors E fs).
Proof.
  unfold spec_errors. apply Forall_flat_map, Forall_forall.
  intros i _. unfold spec_error_at.
  destruct (nth_error fs i) as [f|]; [|constructor].
  destruct (is_By f); [|constructor].
  destruct (strconv_ParseFloat E (Value f)); repeat constructor. eexists; reflexivity.
Qed.

Lemma poll_timeout_is_real E conf ctx start sr st st' :
  poll E conf ctx start sr st = (Returned, st') ->
  errs st' = errs st ++ [errMaxSearchWaitTimeExceeded] ->
  MaxSearchWaitTime conf < clock st' - start.
Proof.
  unfold poll, makeRequest. intros H He.
  destruct (createRequest E ctx sr) as [req|err].
  2: { inversion H; subst. cbn in He. apply app_inv_head in He. discriminate. }
  destruct (transport E (requests st) (clock st) (Some req)) as [took [r|err]].
  2: { inversion H; subst. cbn in He. apply app_inv_head in He. discriminate. }
  destruct (unmarshallSearchReq E (response_of (requests st) r) sr) as [sr1 [e|]] eqn:Hu.
  { destruct (unmarshallSearchReq_error_shape _ _ _ _ _ Hu) as [p [c Hc]]. subst e.
    inversion H; subst. cbn in He. apply app_inv_head in He. discriminate. }
  invert_run H; unfold Since in *; cbn in *; lia.
Qed.

Lemma poll_loop_timeout_is_real E conf ctx start fuel : forall sr st st',
  poll_loop E conf fuel ctx start sr st = Some (None, st') ->
  errs st' = errs st ++ [errMaxSearchWaitTimeExceeded] ->
  MaxSearchWaitTime conf < clock st' - start.
Proof.
  induction fuel as [|fuel IH]; intros sr st st' H He; [discriminate|].
  simpl in H.
  pose proof (poll_timeout_is_real E conf ctx start sr st) as Ht.
  pose proof (poll_exit E conf ctx start sr st) as Hx.
  destruct (poll E conf ctx start sr st) as [[sr1| |sr1] st1].
  - discriminate.
  - inversion H; subst. exact (Ht _ eq_refl He).
  - destruct (Hx _ _ eq_refl) as [He1 _].
    apply (IH _ _ _ H). rewrite He1. exact He.
Qed.

(** X13. The timeout failure is added only when the wait is really over: if
    the one failure a license-usage task adds is
    [errMaxSearchWaitTimeExceeded], then more than the maximum search wait
    time has passed on the clock since the task began, and the task recorded
    no datapoint. *)
Theorem timeout_failure_means_wait_exceeded E conf fuel ctx now st st' :
  scrapeLicenseUsageByIndex E conf fuel ctx now st = Some st' ->
  errs st' = errs st ++ [errMaxSearchWaitTimeExceeded] ->
  MaxSearchWaitTime conf < clock st' - clock st /\ mb st' = mb st.
Proof.
  unfold scrapeLicenseUsageByIndex. intros H He.
  destruct (negb _).
  { inversion H; subst. apply (f_equal (@List.length error)) in He.
    rewrite length_app in He. simpl in He. lia. }
  destruct (poll_loop E conf fuel ctx (clock st) _ st) as [[[sr'|] st1]|] eqn:Hl;
    [| |discriminate]; inversion H; subst; clear H.
  - exfalso.
    destruct (poll_loop_exit E conf ctx _ _ _ _ _ _ Hl) as [_ [He1 _]].
    destruct (record_fields_refines E now (Fields sr') [] st1) as [_ Herr].
    change (most_recent_indexname []) with "" in Herr.
    rewrite Herr, He1 in He. apply app_inv_head in He.
    pose proof (spec_errors_are_library_errors E (Fields sr')) as Hlib.
    rewrite He in Hlib. inversion Hlib as [|x l [cause Hc] Hl']. discriminate.
  - split; [exact (poll_loop_timeout_is_real E conf ctx _ _ _ _ _ Hl He)|].
    exact (poll_loop_mb E conf _ ctx _ _ _ _ _ Hl).
Qed.

Lemma timeout_failure_means_wait_exceeded_witness :
  MaxSearchWaitTime (Mock.config true true (100 * Mock.ms))
  < clock (mkState [errMaxSearchWaitTimeExceeded] [] (2050 * Mock.ms) 1 1 [])
    - clock Mock.idle /\
  mb (mkState [errMaxSearchWaitTimeExceeded] [] (2050 * Mock.ms) 1 1 []) = mb Mock.idle.
Proof.
  apply (timeout_failure_means_wait_exceeded Mock.stuck
           (Mock.config true true (100 * Mock.ms)) 1 background 0 Mock.idle).
  - vm_compute. reflexivity.
  - reflexivity.
Defined.

(** ** Bodies that do not parse *)

(** The job after [n] polls that all went round again: the search response
    and the state in which the next poll starts. *)
Fixpoint after_polls (E : Env) (conf : Config) (ctx : Context) (start : Z)
    (n : nat) (sr : searchResponse) (st : State)
  : option (searchResponse * State) :=
  match n with
  | O => Some (sr, st)
  | S n' =>
      match poll E conf ctx start sr st with
      | (Continue sr1, st1) => after_polls E conf ctx start n' sr1 st1
      | _ => None
      end
  end.

(** A task meets a reply whose non-empty body fails structural parsing, the
    parser's error being [e].
    - The job task, at its poll number [n + 1]: the body is read and
      [xml.Unmarshal] returns [e], whatever it has written to the search
      response by then.  A body that is not empty has a content length other
      than 0.
    - The throughput task, at its one request: the body is read and
      [json.Unmarshal] returns [e].  [encoding/json] checks that the whole
      input is well-formed before it writes anything, so the record is as it
      was handed in. *)
Definition body_fails_to_parse (E : Env) (conf : Config) (ctx : Context)
    (t : task) (st : State) (n : nat) (e : lib_error) : Prop :=
  match t with
  | LicenseUsageByIndex =>
      exists sr stn req took r sr',
        after_polls E conf ctx (clock st) n (new_search E) st = Some (sr, stn) /\
        createRequest E ctx sr = inl req /\
        transport E (requests stn) (clock stn) (Some req) = (took, inl r) /\
        reply_body r <> "" /\
        reply_length r <> 0 /\
        reply_read_err r = None /\
        xml_Unmarshal E (reply_body r) (with_Return sr (reply_status r)) = (sr', Some e)
  | IndexThroughput =>
      exists req took r,
        createAPIRequest E ctx (apiDict E "SplunkIndexerThroughput") = inl req /\
        transport E (requests st) (clock st) (Some req) = (took, inl r) /\
        reply_body r <> "" /\
        reply_read_err r = None /\
        json_Unmarshal E (reply_body r) {| Entries := [] |}
        = ({| Entries := [] |}, Some e)
  end.

(** The failure a task adds for the parser's error [e]: the job task wraps
    it (line 153), the throughput task adds it as it is (line 189). *)
Definition decode_failure (t : task) (e : lib_error) : error :=
  match t with
  | LicenseUsageByIndex => Errorf_w "Failed to unmarshall response" (from_lib e)
  | IndexThroughput => from_lib e
  end.

Lemma after_polls_loop E conf ctx start n : forall sr st srn stn,
  after_polls E conf ctx start n sr st = Some (srn, stn) ->
  errs stn = errs st /\ mb stn = mb st /\
  forall m,
    poll_loop E conf (n + m) ctx start sr st = poll_loop E conf m ctx start srn stn.
Proof.
  induction n as [|n IH]; intros sr st srn stn H; simpl in H.
  - inversion H; subst. auto.
  - pose proof (poll_exit E conf ctx start sr st) as Hx.
    pose proof (poll_mb E conf ctx start sr st) as Hm.
    destruct (poll E conf ctx start sr st) as [[sr1| |sr1] st1] eqn:Hp;
      try discriminate.
    destruct (Hx _ _ eq_refl) as [He _]. simpl in Hm.
    destruct (IH _ _ _ _ H) as [He' [Hm' Hl]].
    repeat split; [congruence | congruence |].
    intros m. simpl. rewrite Hp. apply Hl.
Qed.

(** C4. A task is enabled and meets a reply whose non-empty body fails
    structural parsing (XML at some poll of the job task, JSON at the request
    of the throughput task).  Then, with fuel for that poll, the invocation
    ends, adds exactly one failure, the decode failure that carries the
    parser's error, and records no datapoint.  And the other task of the
    cycle still runs: whatever state the job task ends in, a decode failure
    included, the cycle goes on to run the throughput task from that state
    and returns the datapoints and failures of both, so that what one task
    recorded is kept when the other fails. *)
Theorem unparseable_body_is_a_decode_failure E conf fuel ctx now t st n e :
  task_enabled conf t = true ->
  body_fails_to_parse E conf ctx t st n e ->
  (n < fuel)%nat ->
  (exists st',
      run_task E conf fuel ctx now t st = Some st' /\
      errs st' = errs st ++ [decode_failure t e] /\
      mb st' = mb st) /\
  (forall st0 st1,
      scrapeLicenseUsageByIndex E conf fuel ctx (NewTimestampFromTime (clock st0))
        (with_errs st0 []) = Some st1 ->
      exists es ds,
        errs (scrapeIndexThroughput E conf ctx (NewTimestampFromTime (clock st0)) st1)
        = errs st1 ++ es /\
        mb (scrapeIndexThroughput E conf ctx (NewTimestampFromTime (clock st0)) st1)
        = mb st1 ++ ds /\
        scrape E conf fuel ctx st0
        = Some (mb st1 ++ ds, Combine (errs st1 ++ es),
                with_mb (scrapeIndexThroughput E conf ctx
                           (NewTimestampFromTime (clock st0)) st1) [])).
Proof.
  intros Hon Hfail Hfuel. split.
  - destruct t; simpl in Hon, Hfail |- *.
    + destruct Hfail as [sr [stn [req [took [r [sr' [Hn [Hreq [Htr [_ [Hlen [Hread Hxml]]]]]]]]]]]].
      destruct (after_polls_loop E conf ctx (clock st) n _ _ _ _ Hn) as [He [Hm Hl]].
      unfold scrapeLicenseUsageByIndex. rewrite Hon. cbn [negb].
      fold (new_search E).
      replace fuel with (n + S (fuel - S n))%nat by lia.
      rewrite Hl. cbn [poll_loop].
      rewrite (poll_decode_failure E conf ctx (clock st) sr stn req took r sr'
                 (Errorf_w "Failed to unmarshall response" (from_lib e)) Hreq Htr).
      * eexists. split; [reflexivity|]. cbn. rewrite He, Hm. auto.
      * unfold unmarshallSearchReq, response_of, io_ReadAll.
        cbn [ContentLength StatusCode Body content read_err].
        destruct (reply_length r =? 0) eqn:Hz; [lia|].
        rewrite Hread. fold (with_Return sr (reply_status r)). rewrite Hxml.
        reflexivity.
    + destruct Hfail as [req [took [r [Hreq [Htr [_ [Hread Hjson]]]]]]].
      eexists. split; [reflexivity|].
      unfold scrapeIndexThroughput. rewrite Hon, Hreq. cbn [negb].
      unfold makeRequest. rewrite Htr.
      unfold io_ReadAll, response_of. cbn [Body content read_err].
      rewrite Hread, Hjson. cbn. auto.
  - intros st0 st1 H1.
    destruct (scrapeIndexThroughput_appends_errs E conf ctx
                (NewTimestampFromTime (clock st0)) st1) as [es He].
    destruct (scrapeIndexThroughput_appends_points E conf ctx
                (NewTimestampFromTime (clock st0)) st1) as [ds [Hd _]].
    exists es, ds. repeat split; [exact He | exact Hd |].
    unfold scrape. change (clock (with_errs st0 [])) with (clock st0).
    rewrite H1. unfold Emit. cbn [errs with_mb]. rewrite Hd, He. reflexivity.
Qed.

(** A cycle whose job task gets a truncated body at its first poll and whose
    throughput endpoint answers. *)
Definition Mock_truncated_then_throughput : Env :=
  Mock.env [ (300000000%N, inl (Mock.reply 200 (-1) Mock.truncated_body));
             (100000000%N, inl (Mock.reply 200 (-1) Mock.throughput_body)) ] true.

Lemma unparseable_body_is_a_decode_failure_witness :
  (exists st',
      run_task Mock_truncated_then_throughput (Mock.config true true (60 * Second))
        1 background 0 LicenseUsageByIndex Mock.idle = Some st' /\
      errs st'
      = errs Mock.idle
          ++ [decode_failure LicenseUsageByIndex
                (other_error "XML syntax error on line 1: unexpected EOF")] /\
      mb st' = mb Mock.idle) /\
  (forall st0 st1,
      scrapeLicenseUsageByIndex Mock_truncated_then_throughput
        (Mock.config true true (60 * Second)) 1 background
        (NewTimestampFromTime (clock st0)) (with_errs st0 []) = Some st1 ->
      exists es ds,
        errs (scrapeIndexThroughput Mock_truncated_then_throughput
                (Mock.config true true (60 * Second)) background
                (NewTimestampFromTime (clock st0)) st1)
        = errs st1 ++ es /\
        mb (scrapeIndexThroughput Mock_truncated_then_throughput
              (Mock.config true true (60 * Second)) background
              (NewTimestampFromTime (clock st0)) st1)
        = mb st1 ++ ds /\
        scrape Mock_truncated_then_throughput (Mock.config true true (60 * Second))
          1 background st0
        = Some (mb st1 ++ ds, Combine (errs st1 ++ es),
                with_mb (scrapeIndexThroughput Mock_truncated_then_throughput
                           (Mock.config true true (60 * Second)) background
                           (NewTimestampFromTime (clock st0)) st1) [])).
Proof.
  apply (unparseable_body_is_a_decode_failure Mock_truncated_then_throughput
           (Mock.config true true (60 * Second)) 1 background 0
           LicenseUsageByIndex Mock.idle 0
           (other_error "XML syntax error on line 1: unexpected EOF")).
  - reflexivity.
  - exists (new_search Mock_truncated_then_throughput), Mock.idle,
      (Mock.new_request background "POST" "/services/search/jobs/"
         "search index=_internal"),
      300000000%N, (Mock.reply 200 (-1) Mock.truncated_body),
      (with_Return (new_search Mock_truncated_then_throughput) 200).
    repeat split; try reflexivity; vm_compute; discriminate.
  - lia.
Defined.

(** The same for the throughput task, on a body that is not JSON, and for a
    job task whose second poll brings the truncated body; and the cycle of
    the witness in full: the job task fails, the throughput task records its
    point. *)
Example malformed_bodies :
  scrapeIndexThroughput
    (Mock.env [(100000000%N, inl (Mock.reply 200 (-1) Mock.truncated_body))] true)
    (Mock.config false true (60 * Second)) background 7 Mock.idle
  = mkState [from_lib (other_error "invalid character")] [] (100 * Mock.ms) 1 0 [] /\
  body_fails_to_parse
    (Mock.env [(100000000%N, inl (Mock.reply 200 (-1) Mock.truncated_body))] true)
    (Mock.config false true (60 * Second)) background IndexThroughput Mock.idle 0
    (other_error "invalid character") /\
  scrapeLicenseUsageByIndex
    (Mock.env [ (300000000%N, inl Mock.pending);
                (700000000%N, inl (Mock.reply 200 (-1) Mock.truncated_body)) ] true)
    (Mock.config true false (60 * Second)) 2 background 7 Mock.idle
  = Some (mkState
            [Errorf_w "Failed to unmarshall response"
               (from_lib (other_error "XML syntax error on line 1: unexpected EOF"))]
            [] (3000 * Mock.ms) 2 1 [1%nat]) /\
  scrape Mock_truncated_then_throughput (Mock.config true true (60 * Second)) 1
    background Mock.idle
  = Some ([SplunkIndexerThroughput_dp 0 1500 "ok"],
          Some (scrape_errors
                  [Errorf_w "Failed to unmarshall response"
                     (from_lib (other_error "XML syntax error on line 1: unexpected EOF"))]),
          mkState
            [Errorf_w "Failed to unmarshall response"
               (from_lib (other_error "XML syntax error on line 1: unexpected EOF"))]
            [] (400 * Mock.ms) 2 0 [0%nat]).
Proof.
  split; [vm_compute; reflexivity|].
  split.
  - exists (Mock.new_request background "GET" "/services/server/introspection/indexer" ""),
      100000000%N, (Mock.reply 200 (-1) Mock.truncated_body).
    repeat split; try reflexivity. vm_compute. discriminate.
  - split; vm_compute; reflexivity.
Qed.
